(** * legal_document_loader.py: a shallow embedding and its properties

    The module under study loads legal documents from a ZIP archive fetched
    over HTTP ([load_from_url]) or from a CSV file ([load_from_csv]); both
    share the helper [clean_text], and the archive path uses
    [remove_new_lines].

    Python values are embedded as follows: a [str] is the list of its code
    points, a [bytes] object is a list of bytes, exceptions are values of
    [exn] carried by the [Raise] constructor of [result]. *)

From Stdlib Require Import String Ascii.
From Stdlib Require Import List NArith ZArith Bool Lia Arith.
From Stdlib Require Import Strings.Byte.
Import ListNotations.
Open Scope list_scope.
Set Warnings "-register-all".

(** ** Python strings and values *)

Definition char := N.
Definition str := list char.
Definition bytes := list Byte.byte.

Definition NL : char := 10%N.
Definition SP : char := 32%N.

(** [lit] reads a Python string literal: the two characters backslash, n
    stand for the newline, every other character for its code point. *)
Fixpoint lit (s : string) : str :=
  match s with
  | EmptyString => []
  | String "\" (String "n" r) => NL :: lit r
  | String c r => N_of_ascii c :: lit r
  end.

(** The bytes of a text whose characters are below 256. *)
Definition latin1_bytes (s : str) : bytes :=
  flat_map (fun c => match Byte.of_N c with Some b => [b] | None => [] end) s.

Definition bytes_lit (s : string) : bytes := latin1_bytes (lit s).

Inductive exn_class :=
| ValueError | TypeError | AttributeError
| UnicodeDecodeError | UnicodeEncodeError
| OSError | FileNotFoundError | KeyError | BadZipFile | RequestException.

(** An exception object: its class and [str(e)]. Only classes derived from
    [Exception] occur. *)
Record exn := mk_exn { exn_type : exn_class; exn_text : str }.

Inductive result (A : Type) :=
| Ok (a : A)
| Raise (e : exn).
Arguments Ok {A} a.
Arguments Raise {A} e.

Definition bind {A B} (m : result A) (f : A -> result B) : result B :=
  match m with
  | Ok a => f a
  | Raise e => Raise e
  end.

Notation "x <- m ;; k" := (bind m (fun x => k))
  (at level 100, m at next level, right associativity).

Inductive pyval :=
| PyNone
| PyBool (b : bool)
| PyInt (z : Z)
| PyFloat (bits : N)      (* IEEE-754 binary64 bit pattern *)
| PyStr (s : str)
| PyBytes (b : bytes).

Definition isinstance_str (v : pyval) : bool :=
  match v with PyStr _ => true | _ => false end.

Definition isinstance_str_bytes (v : pyval) : bool :=
  match v with PyStr _ | PyBytes _ => true | _ => false end.

(** Truth value of an object, as [if v] / [v and ...] tests it. *)
Definition truthy (v : pyval) : bool :=
  match v with
  | PyNone => false
  | PyBool b => b
  | PyInt z => negb (z =? 0)%Z
  | PyFloat bits => negb ((bits =? 0) || (bits =? 0x8000000000000000))%N
  | PyStr s => match s with [] => false | _ => true end
  | PyBytes b => match b with [] => false | _ => true end
  end.

(** ** The fragment of [re] the module uses

    Patterns are sequences and alternatives of literal characters and greedy
    repetitions [c{n,}] of a character. Matching is by backtracking with an
    explicit continuation, alternatives tried left to right, repetitions
    longest first, which is the order of Python's engine. *)

Inductive regex :=
| Lit (c : char)
| Rep (c : char) (least : nat)
| Cat (r1 r2 : regex)
| Or (r1 r2 : regex).

Definition orelse {A} (x y : option A) : option A :=
  match x with Some _ => x | None => y end.

Fixpoint rep_greedy (c : char) (least : nat) (s : str)
         (k : str -> option str) : option str :=
  let stop := match least with O => k s | S _ => None end in
  match s with
  | x :: s' =>
      if (x =? c)%N then orelse (rep_greedy c (pred least) s' k) stop
      else stop
  | [] => stop
  end.

Fixpoint rmatch (r : regex) (s : str) (k : str -> option str) : option str :=
  match r with
  | Lit c =>
      match s with
      | x :: s' => if (x =? c)%N then k s' else None
      | [] => None
      end
  | Rep c least => rep_greedy c least s k
  | Cat r1 r2 => rmatch r1 s (fun s' => rmatch r2 s' k)
  | Or r1 r2 => orelse (rmatch r1 s k) (rmatch r2 s k)
  end.

(** [re_match r s]: the text left after the match of [r] at the start of
    [s], if there is one. *)
Definition re_match (r : regex) (s : str) : option str := rmatch r s Some.

(** The scanner of [re.sub]: [skip] counts the characters of the current
    match still to be consumed. An empty match inserts the replacement and
    copies one character. *)
Fixpoint scan (r : regex) (repl : str) (skip : nat) (s : str) : str :=
  match s with
  | [] =>
      match skip with
      | O => match re_match r [] with Some _ => repl | None => [] end
      | S _ => []
      end
  | c :: s' =>
      match skip with
      | S k => scan r repl k s'
      | O =>
          match re_match r s with
          | None => c :: scan r repl 0 s'
          | Some rest =>
              match length s - length rest with
              | O => repl ++ c :: scan r repl 0 s'
              | S k => repl ++ scan r repl k s'
              end
          end
      end
  end.

(** [re.sub(pattern, repl, string)] with a [str] pattern: a [bytes] subject
    is rejected with "cannot use a string pattern on a bytes-like object",
    any other non-string with "expected string or bytes-like object". *)
Definition re_sub (r : regex) (repl : str) (subject : pyval) : result pyval :=
  match subject with
  | PyStr s => Ok (PyStr (scan r repl 0 s))
  | PyBytes _ =>
      Raise (mk_exn TypeError
               (lit "cannot use a string pattern on a bytes-like object"))
  | _ => Raise (mk_exn TypeError (lit "expected string or bytes-like object"))
  end.

(** ** LegalDocumentLoader.clean_text *)

(** The pattern ['\n{1,} | \n']. *)
Definition pat_space_break : regex :=
  Or (Cat (Rep NL 1) (Lit SP)) (Cat (Lit SP) (Lit NL)).

(** The pattern ['\n{2,}']. *)
Definition pat_breaks : regex := Rep NL 2.

Definition clean_text (doc : pyval) : result pyval :=
  if isinstance_str_bytes doc then
    clean_text <- re_sub pat_space_break [NL] doc ;;
    clean_text <- re_sub pat_breaks [NL; NL] clean_text ;;
    Ok clean_text
  else Ok (PyStr []).

(** The two substitutions of [clean_text] as functions on strings. *)
Definition pass1 (s : str) : str := scan pat_space_break [NL] 0 s.
Definition pass2 (s : str) : str := scan pat_breaks [NL; NL] 0 s.
Definition clean_str (s : str) : str := pass2 (pass1 s).

(** A space next to a line break, on either side, somewhere in [s]. *)
Definition adjacent (a b : char) : bool :=
  ((a =? NL) && (b =? SP) || (a =? SP) && (b =? NL))%N.

Fixpoint space_by_break (s : str) : bool :=
  match s with
  | a :: (b :: _) as t => adjacent a b || space_by_break t
  | _ => false
  end.

(** ** String operations of the archive path *)

Fixpoint str_eqb (a b : str) : bool :=
  match a, b with
  | [], [] => true
  | x :: a', y :: b' => (x =? y)%N && str_eqb a' b'
  | _, _ => false
  end.

Fixpoint dropwhile {A} (p : A -> bool) (l : list A) : list A :=
  match l with
  | x :: l' => if p x then dropwhile p l' else l
  | [] => []
  end.

(** [s.strip(chars)]: leading and trailing characters satisfying [p] go. *)
Definition strip (p : char -> bool) (s : str) : str :=
  rev (dropwhile p (rev (dropwhile p s))).

Definition is_space (c : char) : bool := (c =? SP)%N.

(** The characters [str.isspace] accepts, which [strip()] without argument
    removes. *)
Definition is_whitespace (c : char) : bool :=
  ((9 <=? c) && (c <=? 13) || (28 <=? c) && (c <=? 32) ||
   (c =? 0x85) || (c =? 0xA0) || (c =? 0x1680) ||
   (0x2000 <=? c) && (c <=? 0x200A) || (c =? 0x2028) || (c =? 0x2029) ||
   (c =? 0x202F) || (c =? 0x205F) || (c =? 0x3000))%N.

(** The line boundaries of [str.splitlines]. *)
Definition is_linebreak (c : char) : bool :=
  ((10 <=? c) && (c <=? 13) || (28 <=? c) && (c <=? 30) ||
   (c =? 0x85) || (c =? 0x2028) || (c =? 0x2029))%N.

Definition CR : char := 13%N.

(** [cur] holds the current line reversed, [after_cr] tells that the last
    character was a carriage return, whose following line feed belongs to
    the same boundary. *)
Fixpoint splitlines_from (cur : str) (after_cr : bool) (s : str) : list str :=
  match s with
  | [] => match cur with [] => [] | _ => [rev cur] end
  | c :: s' =>
      if after_cr && (c =? NL)%N then splitlines_from cur false s'
      else if is_linebreak c then rev cur :: splitlines_from [] (c =? CR)%N s'
      else splitlines_from (c :: cur) false s'
  end.

Definition splitlines (s : str) : list str := splitlines_from [] false s.

(** Text-mode reading translates ["\r\n"] and a lone ["\r"] to ["\n"]. *)
Fixpoint universal_newlines (s : str) : str :=
  match s with
  | [] => []
  | c :: s' =>
      if (c =? CR)%N then
        NL :: match s' with
              | d :: s'' =>
                  if (d =? NL)%N then universal_newlines s''
                  else universal_newlines s'
              | [] => []
              end
      else c :: universal_newlines s'
  end.

Fixpoint join (sep : str) (l : list str) : str :=
  match l with
  | [] => []
  | [x] => x
  | x :: l' => x ++ sep ++ join sep l'
  end.

Definition endswith (s suffix : str) : bool :=
  str_eqb (skipn (length s - length suffix) s) suffix.

(** latin-1 maps byte [b] to code point [b]: decoding is total, encoding
    fails on a code point above 255. *)
Definition decode_latin1 (b : bytes) : str := map Byte.to_N b.

Fixpoint encode_latin1 (s : str) : result bytes :=
  match s with
  | [] => Ok []
  | c :: s' =>
      match Byte.of_N c with
      | Some b => bs <- encode_latin1 s' ;; Ok (b :: bs)
      | None =>
          Raise (mk_exn UnicodeEncodeError
                   (lit "'latin-1' codec can't encode character"))
      end
  end.

(** ** remove_new_lines *)

Definition remove_new_lines_step (clean_text : list str) (line : pyval)
  : list str :=
  match line with
  | PyStr line =>
      let line := strip is_space line in
      match line with
      | [] => clean_text
      | _ => clean_text ++ [line]
      end
  | _ => clean_text
  end.

Definition remove_new_lines (lines : list pyval) : list str :=
  fold_left remove_new_lines_step lines [].

(** ** The working directory *)

Inductive node :=
| File (data : bytes)
| Dir (entries : list (str * node)).

Definition entries := list (str * node).

Fixpoint find_entry (name : str) (es : entries) : option node :=
  match es with
  | [] => None
  | (n, x) :: es' => if str_eqb n name then Some x else find_entry name es'
  end.

Fixpoint remove_entry (name : str) (es : entries) : entries :=
  match es with
  | [] => []
  | (n, x) :: es' =>
      if str_eqb n name then es' else (n, x) :: remove_entry name es'
  end.

Fixpoint replace_entry (name : str) (y : node) (es : entries) : entries :=
  match es with
  | [] => []
  | (n, x) :: es' =>
      if str_eqb n name then (n, y) :: es'
      else (n, x) :: replace_entry name y es'
  end.

Definition os_error (c : exn_class) (msg : string) : exn := mk_exn c (lit msg).

(** Removal of the file [name] of a directory. *)
Definition unlink (name : str) (es : entries) : result entries :=
  match find_entry name es with
  | Some (File _) => Ok (remove_entry name es)
  | Some (Dir _) => Raise (os_error OSError "Is a directory")
  | None => Raise (os_error FileNotFoundError "No such file or directory")
  end.

(** Removal of the empty subdirectory [name] of a directory. *)
Definition rmdir_in (name : str) (es : entries) : result entries :=
  match find_entry name es with
  | Some (Dir []) => Ok (remove_entry name es)
  | Some (Dir (_ :: _)) => Raise (os_error OSError "Directory not empty")
  | Some (File _) => Raise (os_error OSError "Not a directory")
  | None => Raise (os_error FileNotFoundError "No such file or directory")
  end.

(** [descend name f es] runs [f] inside the subdirectory [name]. *)
Definition descend (name : str) (f : entries -> result entries) (es : entries)
  : result entries :=
  match find_entry name es with
  | Some (Dir sub) => sub' <- f sub ;; Ok (replace_entry name (Dir sub') es)
  | Some (File _) => Raise (os_error OSError "Not a directory")
  | None => Raise (os_error FileNotFoundError "No such file or directory")
  end.

(** [os.remove] and [os.rmdir] on a path given by its components below the
    directory [es]. *)
Fixpoint tree_remove (p : list str) (es : entries) : result entries :=
  match p with
  | [] => Raise (os_error OSError "Is a directory")
  | [name] => unlink name es
  | name :: p' => descend name (tree_remove p') es
  end.

Fixpoint tree_rmdir (p : list str) (es : entries) : result entries :=
  match p with
  | [] => Raise (os_error OSError "Device or resource busy")
  | [name] => rmdir_in name es
  | name :: p' => descend name (tree_rmdir p') es
  end.

(** The bytes of the file at a path. *)
Fixpoint tree_read (p : list str) (es : entries) : result bytes :=
  match p with
  | [] => Raise (os_error OSError "Is a directory")
  | name :: p' =>
      match find_entry name es with
      | None => Raise (os_error FileNotFoundError "No such file or directory")
      | Some (File data) =>
          match p' with
          | [] => Ok data
          | _ => Raise (os_error OSError "Not a directory")
          end
      | Some (Dir sub) => tree_read p' sub
      end
  end.

Definition dir_names (es : entries) : list str :=
  flat_map (fun e => match snd e with Dir _ => [fst e] | File _ => [] end) es.

Definition file_names (es : entries) : list str :=
  flat_map (fun e => match snd e with File _ => [fst e] | Dir _ => [] end) es.

(** One item of [os.walk]: the directory's path, its subdirectories, its
    files. A directory lists its entries in the order of [entries]. *)
Definition walk_item := (list str * list str * list str)%type.

(** [os.walk(top)]: a directory first, then its subdirectories in turn. *)
Fixpoint walk (path : list str) (n : node) : list walk_item :=
  match n with
  | File _ => []
  | Dir es =>
      (path, dir_names es, file_names es) ::
      (fix subdirs (l : entries) : list walk_item :=
         match l with
         | [] => []
         | (name, child) :: l' => walk (path ++ [name]) child ++ subdirs l'
         end) es
  end.

(** [os.walk(top, topdown=False)]: the subdirectories first. *)
Fixpoint walk_bottom_up (path : list str) (n : node) : list walk_item :=
  match n with
  | File _ => []
  | Dir es =>
      (fix subdirs (l : entries) : list walk_item :=
         match l with
         | [] => []
         | (name, child) :: l' =>
             walk_bottom_up (path ++ [name]) child ++ subdirs l'
         end) es
      ++ [(path, dir_names es, file_names es)]
  end.

(** What the loader can see of the working directory: the archive file
    [legal_documents.zip] and the directory [legal_documents], each absent
    or present. *)
Record disk := mk_disk {
  zip_file : option bytes;
  extract_dir : option entries
}.

Definition fresh : disk := mk_disk None None.

Definition zip_filename : str := lit "legal_documents.zip".
Definition extract_directory : str := lit "legal_documents".

(** [os.path.join] of the components of a path. *)
Definition path_str (p : list str) : str := join (lit "/") p.

Definition no_such_file : exn :=
  os_error FileNotFoundError "No such file or directory".

(** [open(path, "r", encoding="latin-1")] followed by [f.read()]. *)
Definition open_read (d : disk) (p : list str) : result str :=
  match p with
  | top :: rest =>
      if str_eqb top extract_directory then
        match extract_dir d with
        | Some es =>
            data <- tree_read rest es ;;
            Ok (universal_newlines (decode_latin1 data))
        | None => Raise no_such_file
        end
      else Raise no_such_file
  | [] => Raise no_such_file
  end.

Definition on_extract_dir (f : list str -> entries -> result entries)
           (p : list str) (d : disk) : result disk :=
  match p with
  | top :: rest =>
      if str_eqb top extract_directory then
        match extract_dir d with
        | Some es =>
            es' <- f rest es ;; Ok (mk_disk (zip_file d) (Some es'))
        | None => Raise no_such_file
        end
      else Raise no_such_file
  | [] => Raise no_such_file
  end.

Definition os_remove : list str -> disk -> result disk :=
  on_extract_dir tree_remove.

Definition os_rmdir : list str -> disk -> result disk :=
  on_extract_dir tree_rmdir.

(** [os.remove(zip_filename)]. *)
Definition remove_zip (d : disk) : result disk :=
  match zip_file d with
  | Some _ => Ok (mk_disk None (extract_dir d))
  | None => Raise no_such_file
  end.

(** [os.rmdir(extract_directory)]. *)
Definition rmdir_extract_dir (d : disk) : result disk :=
  match extract_dir d with
  | Some [] => Ok (mk_disk (zip_file d) None)
  | Some (_ :: _) => Raise (os_error OSError "Directory not empty")
  | None => Raise no_such_file
  end.

(** [os.walk] of the extraction directory; a missing directory yields
    nothing. *)
Definition walk_disk (bottom_up : bool) (d : disk) : list walk_item :=
  match extract_dir d with
  | Some es =>
      (if bottom_up then walk_bottom_up else walk) [extract_directory] (Dir es)
  | None => []
  end.

(** ** Effects: the disk and standard output *)

Record world := mk_world { w_disk : disk; w_stdout : list str }.

Definition io (A : Type) := world -> result A * world.

Definition io_ret {A} (a : A) : io A := fun w => (Ok a, w).

Definition io_bind {A B} (m : io A) (f : A -> io B) : io B :=
  fun w =>
    match m w with
    | (Ok a, w') => f a w'
    | (Raise e, w') => (Raise e, w')
    end.

Notation "x <~ m ;; k" := (io_bind m (fun x => k))
  (at level 100, m at next level, right associativity).

Definition lift {A} (r : result A) : io A := fun w => (r, w).

(** [try: body except ...: handler]. *)
Definition io_try {A} (body : io A) (handler : exn -> io A) : io A :=
  fun w =>
    match body w with
    | (Raise e, w') => handler e w'
    | r => r
    end.

(** [print(s)] writes [s] and a newline. *)
Definition print (s : str) : io unit :=
  fun w => (Ok tt, mk_world (w_disk w) (w_stdout w ++ [s ++ [NL]])).

Definition get_disk : io disk := fun w => (Ok (w_disk w), w).

Definition on_disk (f : disk -> result disk) : io unit :=
  fun w =>
    match f (w_disk w) with
    | Ok d => (Ok tt, mk_world d (w_stdout w))
    | Raise e => (Raise e, w)
    end.

(** A [for] loop whose body updates a local variable. *)
Fixpoint for_fold {X S} (l : list X) (body : S -> X -> io S) (s : S) : io S :=
  match l with
  | [] => io_ret s
  | x :: l' => s' <~ body s x ;; for_fold l' body s'
  end.

Definition for_each {X} (l : list X) (body : X -> io unit) : io unit :=
  for_fold l (fun _ x => body x) tt.

(** ** Documents and frames *)

(** The dictionaries the loaders build; [Filename] is absent from those of
    [load_from_csv]. *)
Record legal_document := mk_doc {
  Title : str;
  Filename : option str;
  Text : str
}.

(** The values [pandas.read_csv] places in a frame. *)
Inductive cell :=
| CellStr (s : str)
| CellInt (z : Z)
| CellFloat (bits : N)
| CellBool (b : bool).

Definition py_of_cell (c : cell) : pyval :=
  match c with
  | CellStr s => PyStr s
  | CellInt z => PyInt z
  | CellFloat bits => PyFloat bits
  | CellBool b => PyBool b
  end.

(** The float NaN that stands for a missing value. *)
Definition NaN : cell := CellFloat 0x7FF8000000000000.

Record DataFrame := mk_frame {
  df_index : list cell;
  df_columns : list (str * list cell)
}.

Fixpoint df_column (name : str) (cols : list (str * list cell))
  : option (list cell) :=
  match cols with
  | [] => None
  | (n, c) :: cols' => if str_eqb n name then Some c else df_column name cols'
  end.

(** [name in df.columns]. *)
Definition in_columns (name : str) (df : DataFrame) : bool :=
  existsb (fun c => str_eqb (fst c) name) (df_columns df).

Fixpoint map_result {A B} (f : A -> result B) (l : list A) : result (list B) :=
  match l with
  | [] => Ok []
  | x :: l' => y <- f x ;; ys <- map_result f l' ;; Ok (y :: ys)
  end.

(** [name_item.title()]: only a string has the method. *)
Definition no_title (type_name : string) : exn :=
  mk_exn AttributeError
         (lit "'" ++ lit type_name ++ lit "' object has no attribute 'title'").

(** Title-casing of ASCII text: a letter that follows a letter is lowered,
    any other letter is raised. *)
Definition is_upper (c : char) : bool := ((65 <=? c) && (c <=? 90))%N.
Definition is_lower (c : char) : bool := ((97 <=? c) && (c <=? 122))%N.
Definition ascii_is_cased (c : char) : bool := is_upper c || is_lower c.
Definition ascii_upper (c : char) : char := if is_lower c then (c - 32)%N else c.
Definition ascii_lower (c : char) : char := if is_upper c then (c + 32)%N else c.

Fixpoint ascii_title_from (previous_is_cased : bool) (s : str) : str :=
  match s with
  | [] => []
  | c :: s' =>
      (if previous_is_cased then ascii_lower c else ascii_upper c)
        :: ascii_title_from (ascii_is_cased c) s'
  end.

Definition ascii_title (s : str) : str := ascii_title_from false s.

Definition is_ascii (s : str) : bool := forallb (fun c => (c <? 128)%N) s.

Section Loader.

(** The world outside the module:
    - [requests_get url] is the body of the HTTP response, or the
      exception [requests.get] raises;
    - [zip_extractall content dir] is what opening [content] as a ZIP
      archive and extracting it over the directory [dir] ([None] when it
      does not exist) leaves in place, with the exception raised, if any;
    - [convert_to_utf8] is the function of that name of the module
      [utf8_encoder];
    - [read_csv path] is [pandas.read_csv(path, index_col=0)];
    - [str_title] is [str.title], which follows the Unicode tables of the
      interpreter. *)
Variable requests_get : str -> result bytes.
Variable zip_extractall : bytes -> option entries -> result unit * option entries.
Variable convert_to_utf8 : bytes -> result str.
Variable read_csv : str -> result DataFrame.
Variable str_title : str -> str.

(** *** load_from_url *)

(** The body of the [try] statement for one file. *)
Definition read_document (path : list str) (file : str)
           (legal_documents : list legal_document)
  : io (list legal_document) :=
  d <~ get_disk ;;
  f_read <~ lift (open_read d (path ++ [file])) ;;
  let text := splitlines f_read in
  let clean_text := remove_new_lines (map PyStr text) in
  match clean_text with
  | [] => io_ret legal_documents
  | first :: rest =>
      let title := strip is_whitespace first in
      title_bytes <~ lift (encode_latin1 title) ;;
      title <~ lift (convert_to_utf8 title_bytes) ;;
      let content := join [NL] rest in
      content_bytes <~ lift (encode_latin1 content) ;;
      content <~ lift (convert_to_utf8 content_bytes) ;;
      io_ret (legal_documents ++ [mk_doc title (Some file) content])
  end.

Definition skipping_message (file_path : str) : str :=
  lit "**Skipping file " ++ file_path ++ lit " due to encoding issues.**\n".

(** The two [except] clauses. *)
Definition report (file_path : str)
           (legal_documents : list legal_document) (e : exn)
  : io (list legal_document) :=
  match exn_type e with
  | UnicodeDecodeError =>
      _ <~ print (skipping_message file_path) ;; io_ret legal_documents
  | _ => _ <~ print (exn_text e) ;; io_ret legal_documents
  end.

Definition visit_file (path : list str)
           (legal_documents : list legal_document) (file : str)
  : io (list legal_document) :=
  if endswith file (lit ".txt") then
    let file_path := path_str (path ++ [file]) in
    io_try (read_document path file legal_documents)
           (report file_path legal_documents)
  else io_ret legal_documents.

Definition visit_directory (legal_documents : list legal_document)
           (item : walk_item) : io (list legal_document) :=
  let '(path, folders, files) := item in
  for_fold files (visit_file path) legal_documents.

Definition remove_directory_content (item : walk_item) : io unit :=
  let '(path, folders, files) := item in
  _ <~ for_each files (fun file => on_disk (os_remove (path ++ [file]))) ;;
  for_each folders (fun folder => on_disk (os_rmdir (path ++ [folder]))).

Definition write_zip (content : bytes) : io unit :=
  fun w => (Ok tt, mk_world (mk_disk (Some content) (extract_dir (w_disk w)))
                            (w_stdout w)).

(** [with zipfile.ZipFile(zip_filename, "r") as zip_ref:
     zip_ref.extractall(extract_directory)]. *)
Definition extract_zip : io unit :=
  fun w =>
    match zip_file (w_disk w) with
    | None => (Raise no_such_file, w)
    | Some content =>
        let '(r, dir) := zip_extractall content (extract_dir (w_disk w)) in
        (r, mk_world (mk_disk (zip_file (w_disk w)) dir) (w_stdout w))
    end.

Definition load_from_url (url : str) : io (list legal_document) :=
  content <~ lift (requests_get url) ;;
  _ <~ write_zip content ;;
  _ <~ extract_zip ;;
  d <~ get_disk ;;
  legal_documents <~ for_fold (walk_disk false d) visit_directory [] ;;
  _ <~ on_disk remove_zip ;;
  d <~ get_disk ;;
  _ <~ for_each (walk_disk true d) remove_directory_content ;;
  _ <~ on_disk rmdir_extract_dir ;;
  io_ret legal_documents.

(** *** load_from_csv *)

Definition cell_title (name_item : cell) : result str :=
  match name_item with
  | CellStr s => Ok (str_title s)
  | CellInt _ => Raise (no_title "int")
  | CellFloat _ => Raise (no_title "float")
  | CellBool _ => Raise (no_title "bool")
  end.

(** The function applied to the column [Text]. *)
Definition clean_cell (x : cell) : result pyval :=
  if isinstance_str_bytes (py_of_cell x) then clean_text (py_of_cell x)
  else Ok (PyStr []).

(** [[doc for doc in text_list if doc and isinstance(doc, str)]]. *)
Definition keep_texts (text_list : list pyval) : list str :=
  flat_map (fun doc =>
              match doc with
              | PyStr s => if truthy doc && isinstance_str doc then [s] else []
              | _ => []
              end) text_list.

(** The loop over [zip(name_list, text_list)]. *)
Fixpoint pair_up (name_list : list cell) (text_list : list str)
         (legal_documents : list legal_document)
  : result (list legal_document) :=
  match name_list, text_list with
  | name_item :: names, text_item :: texts =>
      title <- cell_title name_item ;;
      pair_up names texts (legal_documents ++ [mk_doc title None text_item])
  | _, _ => Ok legal_documents
  end.

Definition missing_text_column : exn :=
  mk_exn ValueError (lit "The 'Text' column is missing in the CSV file.").

Definition load_from_csv (file_path : str) : result (list legal_document) :=
  df <- read_csv file_path ;;
  let name_list := df_index df in
  if negb (in_columns (lit "Text") df) then Raise missing_text_column
  else
    match df_column (lit "Text") (df_columns df) with
    | None => Raise (mk_exn KeyError (lit "'Text'"))
    | Some text =>
        clean <- map_result clean_cell text ;;
        let text_list := keep_texts clean in
        pair_up name_list text_list []
    end.

End Loader.

(** ** The archive loop, stated on lists

    These definitions follow the description of the loader: they are what
    the loops above are compared with. *)

Definition nonempty (s : str) : bool :=
  match s with [] => false | _ => true end.

(** The lines that remain of a file: each without the spaces around it,
    those that are empty then removed. *)
Definition kept_lines (lines : list str) : list str :=
  filter nonempty (map (strip is_space) lines).

Definition latin1 (s : str) : Prop := Forall (fun c => (c <= 255)%N) s.

(** The record of a file whose text is [text]: none without a remaining
    line; otherwise the first remaining line, without the whitespace around
    it, gives the title and the others, joined by line breaks, the text. *)
Definition file_record (convert_to_utf8 : bytes -> result str)
           (file : str) (text : str) : result (option legal_document) :=
  match kept_lines (splitlines text) with
  | [] => Ok None
  | first :: rest =>
      title <- convert_to_utf8 (latin1_bytes (strip is_whitespace first)) ;;
      content <- convert_to_utf8 (latin1_bytes (join [NL] rest)) ;;
      Ok (Some (mk_doc title (Some file) content))
  end.

Definition document_of (convert_to_utf8 : bytes -> result str)
           (d : disk) (path : list str) (file : str)
  : result (option legal_document) :=
  text <- open_read d (path ++ [file]) ;;
  file_record convert_to_utf8 file text.

(** The files [os.walk] gives, each with the path of its directory. *)
Definition files_of (items : list walk_item) : list (list str * str) :=
  flat_map (fun item : walk_item =>
              let '(path, _, files) := item in map (pair path) files) items.

Definition is_txt (file : str) : bool := endswith file (lit ".txt").

(** What one file adds to the result and to standard output. *)
Definition docs_of (convert_to_utf8 : bytes -> result str) (d : disk)
           (pf : list str * str) : list legal_document :=
  if is_txt (snd pf) then
    match document_of convert_to_utf8 d (fst pf) (snd pf) with
    | Ok (Some doc) => [doc]
    | _ => []
    end
  else [].

Definition message_of (file_path : str) (e : exn) : str :=
  match exn_type e with
  | UnicodeDecodeError => skipping_message file_path ++ [NL]
  | _ => exn_text e ++ [NL]
  end.

Definition messages_of (convert_to_utf8 : bytes -> result str) (d : disk)
           (pf : list str * str) : list str :=
  if is_txt (snd pf) then
    match document_of convert_to_utf8 d (fst pf) (snd pf) with
    | Raise e => [message_of (path_str (fst pf ++ [snd pf])) e]
    | _ => []
    end
  else [].


(** ** The removal of the extracted tree, stated on lists *)

(** A directory holds one entry per name. *)
Definition has_name (name : str) (es : entries) : bool :=
  existsb (fun e => str_eqb (fst e) name) es.

Fixpoint distinct_names (es : entries) : bool :=
  match es with
  | [] => true
  | (n, _) :: es' => negb (has_name n es') && distinct_names es'
  end.

Fixpoint well_formed (n : node) : bool :=
  match n with
  | File _ => true
  | Dir es =>
      distinct_names es &&
      (fix all (l : entries) : bool :=
         match l with
         | [] => true
         | (_, child) :: l' => well_formed child && all l'
         end) es
  end.

(** The calls of [os.remove] and [os.rmdir] the last loop makes. *)
Inductive fs_op :=
| Unlink (p : list str)
| Rmdir (p : list str).

Definition op_path (op : fs_op) : list str :=
  match op with Unlink p | Rmdir p => p end.

Definition push (name : str) (op : fs_op) : fs_op :=
  match op with
  | Unlink p => Unlink (name :: p)
  | Rmdir p => Rmdir (name :: p)
  end.

Definition item_ops (item : walk_item) : list fs_op :=
  let '(path, folders, files) := item in
  map (fun file => Unlink (path ++ [file])) files ++
  map (fun folder => Rmdir (path ++ [folder])) folders.

Definition tree_op (op : fs_op) : entries -> result entries :=
  match op with
  | Unlink p => tree_remove p
  | Rmdir p => tree_rmdir p
  end.

Definition disk_op (op : fs_op) : disk -> result disk :=
  match op with
  | Unlink p => os_remove p
  | Rmdir p => os_rmdir p
  end.

Fixpoint run_ops {S} (run : fs_op -> S -> result S) (ops : list fs_op) (s : S)
  : result S :=
  match ops with
  | [] => Ok s
  | op :: ops' => s' <- run op s ;; run_ops run ops' s'
  end.

Definition prefix (p : list str) (item : walk_item) : walk_item :=
  let '(path, folders, files) := item in (p ++ path, folders, files).

(** Induction on a tree, with the property at hand for every entry of a
    directory. *)
Fixpoint node_induction (P : node -> Prop)
         (HFile : forall data, P (File data))
         (HDir : forall es, Forall (fun e => P (snd e)) es -> P (Dir es))
         (n : node) : P n :=
  match n with
  | File data => HFile data
  | Dir es =>
      HDir es
           ((fix go (l : entries) : Forall (fun e => P (snd e)) l :=
               match l with
               | [] => Forall_nil _
               | (name, child) :: l' =>
                   Forall_cons (name, child)
                               (node_induction P HFile HDir child) (go l')
               end) es)
  end.


Definition is_dir (e : str * node) : bool :=
  match snd e with Dir _ => true | File _ => false end.

(** A directory whose subdirectories have been emptied. *)
Definition empty_dir (x : node) : node :=
  match x with
  | Dir _ => Dir []
  | File data => File data
  end.

Definition emptied (es : entries) : entries :=
  map (fun e => (fst e, empty_dir (snd e))) es.


(** What the removal loop is to achieve below a directory. *)
Definition cleared (n : node) : Prop :=
  well_formed n = true ->
  forall es, n = Dir es ->
             run_ops tree_op (flat_map item_ops (walk_bottom_up [] n)) es = Ok [].


(** ** Environments for the examples *)

(** Modelled from the spec: [convert_to_utf8] of the module [utf8_encoder],
    which is not among the sources. The description has it decode the bytes
    with the legacy single-byte encoding into text. *)
Definition convert_to_utf8_spec (b : bytes) : result str :=
  Ok (decode_latin1 b).

(** A conversion that refuses bytes outside ASCII. *)
Definition convert_ascii_only (b : bytes) : result str :=
  if is_ascii (decode_latin1 b) then Ok (decode_latin1 b)
  else Raise (mk_exn UnicodeDecodeError
                     (lit "'ascii' codec can't decode byte")).

(** A server that answers every request with [content]. *)
Definition serve (content : bytes) : str -> result bytes :=
  fun _ => Ok content.

(** An archive library for which the content fetched unpacks to [es]. *)
Definition unpack_to (es : entries)
  : bytes -> option entries -> result unit * option entries :=
  fun _ _ => (Ok tt, Some es).

Definition bad_zip : exn := mk_exn BadZipFile (lit "File is not a zip file").

(** An archive library that finds the content fetched not to be an
    archive. *)
Definition reject_archive
  : bytes -> option entries -> result unit * option entries :=
  fun _ dir => (Raise bad_zip, dir).

Definition doc1_archive : entries :=
  [(lit "doc1.txt",
    File (bytes_lit "Title Line\n\nBody line 1\nBody line 2\n"))].

Definition padded_archive : entries :=
  [(lit "d.txt", File (bytes_lit "T\n  Body  \n"))].

Definition mixed_archive : entries :=
  [(lit "a.txt", File (bytes_lit "A\nfirst\n"));
   (lit "sub", Dir [(lit "bad.txt", File [Byte.x54; Byte.x0a; Byte.xe9])]);
   (lit "notes.md", File (bytes_lit "ignored"));
   (lit "c.txt", File (bytes_lit "C\nlast\n"))].

Definition some_url : str := lit "http://example.org/documents.zip".

Definition ascii_faithful (convert_to_utf8 : bytes -> result str) : Prop :=
  forall b, is_ascii (decode_latin1 b) = true ->
            convert_to_utf8 b = Ok (decode_latin1 b).


(** ** The tabular loader, stated on lists *)

(** The cleaned text of a cell: that of its string, empty for any other
    value. *)
Definition cleaned (c : cell) : str :=
  match c with
  | CellStr s => clean_str s
  | _ => []
  end.

(** The cleaned texts that are kept, whatever the labels of their rows. *)
Definition survivors (text : list cell) : list str :=
  filter nonempty (map cleaned text).

Definition is_label (c : cell) : bool :=
  match c with CellStr _ => true | _ => false end.

(** [str.title] on ASCII text. *)
Definition title_ascii (str_title : str -> str) : Prop :=
  forall s, is_ascii s = true -> str_title s = ascii_title s.

(** A file system on which every path holds the frame [df]. *)
Definition csv_holding (df : DataFrame) : str -> result DataFrame :=
  fun _ => Ok df.

Definition alpha_beta_frame : DataFrame :=
  mk_frame [CellStr (lit "alpha"); CellStr (lit "beta")]
           [(lit "Text", [CellStr (lit "Hello\n\nWorld"); NaN])].

Definition shifted_frame : DataFrame :=
  mk_frame [CellStr (lit "alpha"); CellStr (lit "beta")]
           [(lit "Text", [NaN; CellStr (lit "World")])].

Definition numbered_frame : DataFrame :=
  mk_frame [CellInt 0; CellInt 1]
           [(lit "Text", [CellStr (lit "first"); CellStr (lit "second")])].

Definition no_text_frame : DataFrame :=
  mk_frame [CellStr (lit "alpha")] [(lit "Body", [CellStr (lit "Hello")])].

Definition some_path : str := lit "documents.csv".


(** ** Further notions the properties are stated with *)

(** The strings among the elements of a list. *)
Definition strings_of (lines : list pyval) : list str :=
  flat_map (fun v => match v with PyStr s => [s] | _ => [] end) lines.

(** Neither the first nor the last character of [s] satisfies [p]. *)
Definition ends_clear (p : char -> bool) (s : str) : Prop :=
  match s with x :: _ => p x = false | [] => True end /\
  match rev s with x :: _ => p x = false | [] => True end.

Definition is_blank (c : char) : bool := ((c =? NL) || (c =? SP))%N.

(** The characters of a text other than spaces and line breaks. *)
Definition content (s : str) : str := filter (fun c => negb (is_blank c)) s.

(** Three line breaks in a row somewhere in [s]. *)
Fixpoint triple_break (s : str) : bool :=
  match s with
  | a :: (b :: c :: _) as t =>
      (a =? NL)%N && (b =? NL)%N && (c =? NL)%N || triple_break t
  | _ => false
  end.

(** An archive library for which the content fetched holds no member:
    nothing is extracted and no directory is made. *)
Definition unpack_nothing
  : bytes -> option entries -> result unit * option entries :=
  fun _ dir => (Ok tt, dir).



(** [subseq a b]: [a] is made of elements of [b] taken at different
    places, in their order. *)
Inductive subseq {A : Type} : list A -> list A -> Prop :=
| subseq_nil : subseq [] []
| subseq_skip (x : A) (a b : list A) : subseq a b -> subseq a (x :: b)
| subseq_take (x : A) (a b : list A) : subseq a b -> subseq (x :: a) (x :: b).

Definition title_only_archive : entries :=
  [(lit "t.txt", File (bytes_lit "Only title\n"))].


(** * Properties *)

(** ** The matcher on the two patterns of [clean_text] *)

Definition is_nl (c : char) : bool := (c =? NL)%N.
Definition drop_nl (s : str) : str := dropwhile is_nl s.

Definition after_space (s : str) : option str :=
  match s with
  | x :: r => if (x =? SP)%N then Some r else None
  | [] => None
  end.

(** What ['\n{1,} | \n'] matches at the start of a string. *)
Definition match_space_break (s : str) : option str :=
  match s with
  | x :: s' =>
      if (x =? NL)%N then after_space (drop_nl s')
      else if (x =? SP)%N then
        match s' with
        | y :: r => if (y =? NL)%N then Some r else None
        | [] => None
        end
      else None
  | [] => None
  end.

(** What ['\n{2,}'] matches at the start of a string. *)
Definition match_breaks (s : str) : option str :=
  match s with
  | a :: b :: r => if (a =? NL)%N && (b =? NL)%N then Some (drop_nl r) else None
  | _ => None
  end.

(** A line as [remove_new_lines] leaves it when it comes from
    [splitlines]: not empty, without a line break, without a space at
    either end. *)
Definition tidy_line (l : str) : Prop :=
  l <> [] /\ Forall (fun c => is_nl c = false) l /\ ends_clear is_space l.

Lemma orelse_none {A} (x : option A) : orelse x None = x.
Proof. destruct x; reflexivity. Qed.

Lemma rep_greedy_any_some (s : str) :
  rep_greedy NL 0 s Some = Some (drop_nl s).
Proof.
  induction s as [|x s IH]; [reflexivity|].
  unfold drop_nl in *. cbn [rep_greedy pred dropwhile]. unfold is_nl at 1.
  destruct (x =? NL)%N; [|reflexivity].
  rewrite IH. reflexivity.
Qed.

Lemma rep_greedy_any_space (s : str) :
  rep_greedy NL 0 s after_space = after_space (drop_nl s).
Proof.
  induction s as [|x s IH]; [reflexivity|].
  unfold drop_nl in *. cbn [rep_greedy pred dropwhile]. unfold is_nl at 1.
  destruct (x =? NL)%N eqn:E; [|reflexivity].
  rewrite IH. apply N.eqb_eq in E. subst x. apply orelse_none.
Qed.

Lemma re_match_space_break (s : str) :
  re_match pat_space_break s = match_space_break s.
Proof.
  unfold re_match, pat_space_break. cbn [rmatch].
  change (fun s' => match s' with
                    | [] => None
                    | x :: s'0 => if (x =? SP)%N then Some s'0 else None
                    end) with after_space.
  destruct s as [|x s]; [reflexivity|].
  cbn [rep_greedy match_space_break pred].
  destruct (x =? NL)%N eqn:E.
  - rewrite rep_greedy_any_space, orelse_none.
    apply N.eqb_eq in E. subst x.
    destruct (after_space (drop_nl s)); reflexivity.
  - cbn [orelse]. reflexivity.
Qed.

Lemma re_match_breaks (s : str) : re_match pat_breaks s = match_breaks s.
Proof.
  unfold re_match, pat_breaks. cbn [rmatch].
  destruct s as [|a [|b r]]; cbn [rep_greedy match_breaks pred].
  - reflexivity.
  - destruct (a =? NL)%N; reflexivity.
  - destruct (a =? NL)%N; [|reflexivity].
    destruct (b =? NL)%N; [|reflexivity].
    rewrite rep_greedy_any_some. reflexivity.
Qed.

(** ** The scanner *)

Lemma scan_skip (r : regex) (repl : str) (s : str) :
  forall k, k <= length s -> scan r repl k s = scan r repl 0 (skipn k s).
Proof.
  induction s as [|c s IH]; intros k Hk.
  - assert (k = 0) by (simpl in Hk; lia). subst k. reflexivity.
  - destruct k as [|k]; [reflexivity|].
    cbn [scan skipn]. apply IH. simpl in Hk. lia.
Qed.

Lemma scan_match (r : regex) (repl : str) (c : char) (pre rest : str) :
  re_match r (c :: pre ++ rest) = Some rest ->
  scan r repl 0 (c :: pre ++ rest) = repl ++ scan r repl 0 rest.
Proof.
  intros H. cbn [scan]. rewrite H.
  replace (length (c :: pre ++ rest) - length rest) with (S (length pre))
    by (cbn [length]; rewrite length_app; lia).
  rewrite scan_skip by (rewrite length_app; lia).
  rewrite skipn_app, skipn_all, Nat.sub_diag. reflexivity.
Qed.

Lemma scan_no_match (r : regex) (repl : str) (c : char) (s : str) :
  re_match r (c :: s) = None ->
  scan r repl 0 (c :: s) = c :: scan r repl 0 s.
Proof. intros H. cbn [scan]. rewrite H. reflexivity. Qed.

Lemma dropwhile_split {A} (p : A -> bool) (l : list A) :
  exists pre, l = pre ++ dropwhile p l /\ forallb p pre = true.
Proof.
  induction l as [|x l [pre [IH1 IH2]]]; simpl.
  - exists []. split; reflexivity.
  - destruct (p x) eqn:E.
    + exists (x :: pre). simpl. rewrite E, IH2. split; [f_equal; exact IH1|reflexivity].
    + exists []. split; reflexivity.
Qed.

Lemma dropwhile_length {A} (p : A -> bool) (l : list A) :
  length (dropwhile p l) <= length l.
Proof.
  destruct (dropwhile_split p l) as [pre [H _]].
  rewrite H at 2. rewrite length_app. lia.
Qed.

(** A match of the first pattern takes at least two characters. *)
Lemma match_space_break_split (s rest : str) :
  match_space_break s = Some rest ->
  exists c d pre, s = c :: (d :: pre) ++ rest.
Proof.
  destruct s as [|x s]; simpl; [discriminate|].
  destruct (x =? NL)%N.
  - destruct (dropwhile_split is_nl s) as [pre [H _]].
    unfold drop_nl. destruct (dropwhile is_nl s) as [|y r] eqn:E; simpl; [discriminate|].
    destruct (y =? SP)%N; [|discriminate].
    intros [= <-]. rewrite H.
    destruct pre as [|d pre].
    + exists x, y, []. reflexivity.
    + exists x, d, (pre ++ [y]). simpl. rewrite <- app_assoc. reflexivity.
  - destruct (x =? SP)%N; [|discriminate].
    destruct s as [|y r]; [discriminate|].
    destruct (y =? NL)%N; [|discriminate].
    intros [= <-]. exists x, y, []. reflexivity.
Qed.

Lemma match_breaks_split (s rest : str) :
  match_breaks s = Some rest ->
  exists c d pre, s = c :: (d :: pre) ++ rest.
Proof.
  destruct s as [|a [|b r]]; simpl; try discriminate.
  destruct ((a =? NL)%N && (b =? NL)%N); [|discriminate].
  intros [= <-]. destruct (dropwhile_split is_nl r) as [pre [H _]].
  exists a, b, pre. simpl. unfold drop_nl. rewrite <- H. reflexivity.
Qed.

Lemma pass1_nil : pass1 [] = [].
Proof. reflexivity. Qed.

Lemma pass1_cons (c : char) (s : str) :
  pass1 (c :: s) =
  match match_space_break (c :: s) with
  | Some rest => NL :: pass1 rest
  | None => c :: pass1 s
  end.
Proof.
  unfold pass1. destruct (match_space_break (c :: s)) as [rest|] eqn:E.
  - destruct (match_space_break_split _ _ E) as [c' [d [pre H]]].
    injection H as -> ->.
    rewrite <- re_match_space_break in E.
    exact (scan_match _ [NL] c' (d :: pre) rest E).
  - apply scan_no_match. rewrite re_match_space_break. exact E.
Qed.

Lemma pass2_nil : pass2 [] = [].
Proof. reflexivity. Qed.

Lemma pass2_cons (c : char) (s : str) :
  pass2 (c :: s) =
  match match_breaks (c :: s) with
  | Some rest => NL :: NL :: pass2 rest
  | None => c :: pass2 s
  end.
Proof.
  unfold pass2. destruct (match_breaks (c :: s)) as [rest|] eqn:E.
  - destruct (match_breaks_split _ _ E) as [c' [d [pre H]]].
    injection H as -> ->.
    rewrite <- re_match_breaks in E.
    exact (scan_match _ [NL; NL] c' (d :: pre) rest E).
  - apply scan_no_match. rewrite re_match_breaks. exact E.
Qed.

(** ** Fixed points of [clean_text] *)

Lemma space_by_break_cons (a b : char) (t : str) :
  space_by_break (a :: b :: t) = adjacent a b || space_by_break (b :: t).
Proof. reflexivity. Qed.

Lemma space_by_break_tail (a : char) (t : str) :
  space_by_break (a :: t) = false -> space_by_break t = false.
Proof.
  destruct t as [|b t]; [reflexivity|].
  rewrite space_by_break_cons. intros H. apply orb_false_iff in H. apply H.
Qed.

Lemma space_by_break_drop_nl (s : str) :
  space_by_break s = false -> space_by_break (drop_nl s) = false.
Proof.
  induction s as [|x s IH]; intros H; [reflexivity|].
  unfold drop_nl in *. cbn [dropwhile]. destruct (is_nl x); [|exact H].
  apply IH. exact (space_by_break_tail _ _ H).
Qed.

(** After a line break without a space next to it, the breaks that follow
    do not end in a space either. *)
Lemma no_space_after_breaks (s : str) :
  space_by_break (NL :: s) = false -> after_space (drop_nl s) = None.
Proof.
  induction s as [|b t IH]; [reflexivity|].
  rewrite space_by_break_cons. intros H.
  apply orb_false_iff in H. destruct H as [H1 H2].
  unfold drop_nl in *. cbn [dropwhile]. unfold is_nl at 1.
  destruct (b =? NL)%N eqn:E.
  - apply N.eqb_eq in E. subst b. apply IH. exact H2.
  - unfold adjacent in H1. cbn in H1. rewrite orb_false_r in H1.
    cbn [after_space]. rewrite H1. reflexivity.
Qed.

Lemma clean_head_no_match (c : char) (s : str) :
  space_by_break (c :: s) = false -> match_space_break (c :: s) = None.
Proof.
  intros H. cbn [match_space_break].
  destruct (c =? NL)%N eqn:E.
  - apply N.eqb_eq in E. subst c. apply no_space_after_breaks. exact H.
  - destruct (c =? SP)%N eqn:E'; [|reflexivity].
    destruct s as [|y r]; [reflexivity|].
    rewrite space_by_break_cons in H. apply orb_false_iff in H.
    destruct H as [H _]. unfold adjacent in H. rewrite E, E' in H.
    cbn in H. rewrite H. reflexivity.
Qed.

Lemma pass1_clean (s : str) : space_by_break s = false -> pass1 s = s.
Proof.
  induction s as [|c s IH]; intros H; [reflexivity|].
  rewrite pass1_cons, (clean_head_no_match _ _ H).
  rewrite IH; [reflexivity|]. exact (space_by_break_tail _ _ H).
Qed.

Lemma pass1_length_le_fuel (n : nat) :
  forall s, length s <= n -> length (pass1 s) <= length s.
Proof.
  induction n as [|n IH]; intros [|c s] Hn; simpl in Hn;
    try (rewrite pass1_nil; simpl; lia); try lia.
  rewrite pass1_cons. destruct (match_space_break (c :: s)) as [rest|] eqn:E.
  - destruct (match_space_break_split _ _ E) as [c' [d [pre H]]].
    injection H as -> ->.
    assert (Hr : length rest <= n) by (simpl in Hn; rewrite length_app in Hn; lia).
    specialize (IH rest Hr). simpl. rewrite length_app. lia.
  - specialize (IH s ltac:(lia)). simpl. lia.
Qed.

Lemma pass1_length_le (s : str) : length (pass1 s) <= length s.
Proof. exact (pass1_length_le_fuel (length s) s (le_n _)). Qed.

Lemma adjacent_matches (c b : char) (t : str) :
  adjacent c b = true ->
  exists rest, match_space_break (c :: b :: t) = Some rest.
Proof.
  unfold adjacent. intros H. apply orb_true_iff in H.
  destruct H as [H|H]; apply andb_true_iff in H; destruct H as [H1 H2];
    apply N.eqb_eq in H1, H2; subst c b; exists t; reflexivity.
Qed.

Lemma pass1_shrinks (s : str) :
  space_by_break s = true -> length (pass1 s) < length s.
Proof.
  induction s as [|c s IH]; intros H; [discriminate|].
  rewrite pass1_cons. destruct (match_space_break (c :: s)) as [rest|] eqn:E.
  - destruct (match_space_break_split _ _ E) as [c' [d [pre Hs]]].
    injection Hs as -> ->.
    pose proof (pass1_length_le rest). simpl. rewrite length_app. lia.
  - assert (Hs : space_by_break s = true).
    { destruct s as [|b t]; [discriminate|].
      rewrite space_by_break_cons in H. apply orb_true_iff in H.
      destruct H as [H|H]; [|exact H].
      destruct (adjacent_matches c b t H) as [rest Hrest]. congruence. }
    specialize (IH Hs). simpl. lia.
Qed.

Lemma drop_nl_head (s : str) :
  match drop_nl s with x :: _ => is_nl x = false | [] => True end.
Proof.
  induction s as [|x s IH]; [exact I|].
  unfold drop_nl in *. cbn [dropwhile]. destruct (is_nl x) eqn:E; [exact IH|exact E].
Qed.

Lemma drop_nl_id (s : str) :
  match s with x :: _ => is_nl x = false | [] => True end -> drop_nl s = s.
Proof.
  destruct s as [|x s]; [reflexivity|]. intros H.
  unfold drop_nl. cbn [dropwhile]. rewrite H. reflexivity.
Qed.

Lemma pass2_head (s : str) : hd_error (pass2 s) = hd_error s.
Proof.
  destruct s as [|c s]; [reflexivity|].
  rewrite pass2_cons. destruct (match_breaks (c :: s)) as [rest|] eqn:E;
    [|reflexivity].
  destruct s as [|b r]; simpl in E; [discriminate|].
  destruct (c =? NL)%N eqn:Ec; [|discriminate].
  apply N.eqb_eq in Ec. subst c. reflexivity.
Qed.

Lemma match_breaks_head (c : char) (s t : str) :
  hd_error s = hd_error t ->
  match_breaks (c :: s) = None -> match_breaks (c :: t) = None.
Proof.
  destruct s as [|a s], t as [|b t]; simpl; try discriminate; try reflexivity.
  intros [= ->]. destruct ((c =? NL)%N && (b =? NL)%N); [discriminate|reflexivity].
Qed.

Lemma pass2_length_le_fuel (n : nat) :
  forall s, length s <= n -> length (pass2 s) <= length s.
Proof.
  induction n as [|n IH]; intros [|c s] Hn; simpl in Hn;
    try (rewrite pass2_nil; simpl; lia); try lia.
  rewrite pass2_cons. destruct (match_breaks (c :: s)) as [rest|] eqn:E.
  - destruct (match_breaks_split _ _ E) as [c' [d [pre H]]].
    injection H as -> ->.
    assert (Hr : length rest <= n) by (simpl in Hn; rewrite length_app in Hn; lia).
    specialize (IH rest Hr). simpl. rewrite length_app. lia.
  - specialize (IH s ltac:(lia)). simpl. lia.
Qed.

Lemma pass2_length_le (s : str) : length (pass2 s) <= length s.
Proof. exact (pass2_length_le_fuel (length s) s (le_n _)). Qed.

Lemma pass2_idempotent_fuel (n : nat) :
  forall s, length s <= n -> pass2 (pass2 s) = pass2 s.
Proof.
  induction n as [|n IH]; intros [|c s] Hn; simpl in Hn;
    try reflexivity; try lia.
  rewrite pass2_cons. destruct (match_breaks (c :: s)) as [rest|] eqn:E.
  - destruct s as [|b r]; simpl in E; [discriminate|].
    destruct ((c =? NL)%N && (b =? NL)%N); [|discriminate].
    injection E as <-.
    assert (Hd : drop_nl (pass2 (drop_nl r)) = pass2 (drop_nl r)).
    { apply drop_nl_id. pose proof (pass2_head (drop_nl r)) as Hh.
      pose proof (drop_nl_head r) as Hr.
      destruct (pass2 (drop_nl r)) as [|x p]; [exact I|].
      destruct (drop_nl r) as [|y q]; [discriminate|].
      injection Hh as ->. exact Hr. }
    rewrite pass2_cons. simpl. rewrite Hd. f_equal. f_equal.
    apply IH. pose proof (dropwhile_length is_nl r). unfold drop_nl.
    simpl in Hn. lia.
  - rewrite pass2_cons.
    rewrite (match_breaks_head c s (pass2 s) (eq_sym (pass2_head s)) E).
    f_equal. apply IH. lia.
Qed.

Lemma pass2_idempotent (s : str) : pass2 (pass2 s) = pass2 s.
Proof. exact (pass2_idempotent_fuel (length s) s (le_n _)). Qed.

Lemma adjacent_head (a : char) (s t : str) :
  hd_error s = hd_error t ->
  space_by_break (a :: s) = false -> space_by_break t = false ->
  space_by_break (a :: t) = false.
Proof.
  destruct s as [|x s], t as [|y t]; simpl; try discriminate; try reflexivity.
  intros [= ->] H Ht. apply orb_false_iff in H. destruct H as [H _].
  fold (space_by_break (y :: t)). rewrite H, Ht. reflexivity.
Qed.

Lemma pass2_clean_fuel (n : nat) :
  forall s, length s <= n ->
            space_by_break s = false -> space_by_break (pass2 s) = false.
Proof.
  induction n as [|n IH]; intros [|c s] Hn H; simpl in Hn;
    try reflexivity; try lia.
  rewrite pass2_cons. destruct (match_breaks (c :: s)) as [rest|] eqn:E.
  - destruct s as [|b r]; simpl in E; [discriminate|].
    destruct (c =? NL)%N eqn:Ec; [|discriminate].
    destruct (b =? NL)%N eqn:Eb; [|discriminate].
    apply N.eqb_eq in Ec, Eb. subst c b. injection E as <-.
    pose proof (space_by_break_tail _ _ H) as H1.
    pose proof (no_space_after_breaks _ H1) as Hsp.
    pose proof (space_by_break_tail _ _ H1) as H2.
    pose proof (space_by_break_drop_nl _ H2) as H3.
    assert (Hp : space_by_break (pass2 (drop_nl r)) = false).
    { apply IH; [|exact H3].
      pose proof (dropwhile_length is_nl r). unfold drop_nl.
      simpl in Hn. lia. }
    pose proof (pass2_head (drop_nl r)) as Hh.
    rewrite space_by_break_cons. cbn [adjacent N.eqb NL SP Pos.eqb andb orb].
    destruct (pass2 (drop_nl r)) as [|x p]; [reflexivity|].
    rewrite space_by_break_cons, Hp, orb_false_r.
    destruct (drop_nl r) as [|y q]; [discriminate|]. injection Hh as ->.
    cbn [after_space] in Hsp. unfold adjacent. cbn.
    destruct (y =? SP)%N; [discriminate|reflexivity].
  - apply (adjacent_head c s); [symmetry; apply pass2_head|exact H|].
    apply IH; [lia|]. exact (space_by_break_tail _ _ H).
Qed.

Lemma pass2_clean (s : str) :
  space_by_break s = false -> space_by_break (pass2 s) = false.
Proof. exact (pass2_clean_fuel (length s) s (le_n _)). Qed.

Lemma clean_text_str (s : str) : clean_text (PyStr s) = Ok (PyStr (clean_str s)).
Proof. reflexivity. Qed.

(** ** Claims about [clean_text] *)

(** C3 (as amended): [clean_text("a\n\n\n\nb")] is ["a\n\nb"],
    [clean_text("a \n b")] is ["a\n b"] (the space before the line break
    goes, the one after it stays), [clean_text(42)] is [""] and
    [clean_text("")] is [""]. *)
Theorem clean_text_examples :
  clean_text (PyStr (lit "a\n\n\n\nb")) = Ok (PyStr (lit "a\n\nb")) /\
  clean_text (PyStr (lit "a \n b")) = Ok (PyStr (lit "a\n b")) /\
  clean_text (PyInt 42) = Ok (PyStr (lit "")) /\
  clean_text (PyStr (lit "")) = Ok (PyStr (lit "")).
Proof. repeat split; reflexivity. Qed.

(** C3, as the claim states it, fails on its second example:
    [clean_text("a \n b")] is not ["a\nb"]. *)
Lemma clean_text_keeps_space_after_break :
  clean_text (PyStr (lit "a \n b")) <> Ok (PyStr (lit "a\nb")).
Proof. rewrite clean_text_str. intros H. discriminate H. Qed.

Lemma clean_str_stable (s : str) :
  space_by_break (clean_str s) = false ->
  clean_str (clean_str s) = clean_str s.
Proof.
  intros H. unfold clean_str at 1.
  rewrite (pass1_clean _ H). unfold clean_str. apply pass2_idempotent.
Qed.

(** C4 (as amended): [clean_text] maps a string [s] to [clean_str s], and
    that output is a fixed point of [clean_text] exactly when it holds no
    space next to a line break. *)
Theorem clean_text_fixed_point_iff (s : str) :
  clean_text (PyStr s) = Ok (PyStr (clean_str s)) /\
  (clean_text (PyStr (clean_str s)) = Ok (PyStr (clean_str s)) <->
   space_by_break (clean_str s) = false).
Proof.
  split; [reflexivity|]. rewrite clean_text_str. split.
  - intros H. injection H as H.
    destruct (space_by_break (clean_str s)) eqn:E; [exfalso|reflexivity].
    pose proof (pass1_shrinks _ E) as H1.
    pose proof (pass2_length_le (pass1 (clean_str s))) as H2.
    unfold clean_str at 1 in H. rewrite H in H2. lia.
  - intros H. rewrite (clean_str_stable _ H). reflexivity.
Qed.

(** C4, as the claim states it, fails: [clean_text] maps ["a \n b"] to
    ["a\n b"], which it does not map to itself. *)
Lemma clean_text_not_idempotent :
  clean_text (PyStr (lit "a \n b")) = Ok (PyStr (lit "a\n b")) /\
  clean_text (PyStr (lit "a\n b")) <> Ok (PyStr (lit "a\n b")).
Proof.
  split; [reflexivity|]. rewrite clean_text_str. intros H. discriminate H.
Qed.

(** A string without a space next to a line break is cleaned to a fixed
    point. *)
Lemma clean_text_idempotent_on_clean_input (s : str) :
  space_by_break s = false ->
  clean_text (PyStr (clean_str s)) = clean_text (PyStr s).
Proof.
  intros H. rewrite !clean_text_str. f_equal. f_equal.
  apply clean_str_stable. unfold clean_str.
  rewrite (pass1_clean _ H). apply pass2_clean. exact H.
Qed.

(** C5: what [clean_text] does on every value. A string is cleaned, any
    value that is neither a string nor a byte sequence gives [""], and a
    byte sequence, which passes the [isinstance] test, makes [re.sub] raise
    [TypeError]. *)
Theorem clean_text_by_type (doc : pyval) :
  clean_text doc =
  match doc with
  | PyStr s => Ok (PyStr (clean_str s))
  | PyBytes _ =>
      Raise (mk_exn TypeError
               (lit "cannot use a string pattern on a bytes-like object"))
  | _ => Ok (PyStr [])
  end.
Proof. destruct doc; reflexivity. Qed.

(** ** Lines of a file *)

Lemma remove_new_lines_from (lines : list str) :
  forall acc,
    fold_left remove_new_lines_step (map PyStr lines) acc =
    acc ++ kept_lines lines.
Proof.
  induction lines as [|l lines IH]; intros acc; cbn [map fold_left].
  - unfold kept_lines. simpl. rewrite app_nil_r. reflexivity.
  - rewrite IH. unfold kept_lines. cbn [map filter remove_new_lines_step].
    destruct (strip is_space l) as [|c r]; cbn [nonempty].
    + reflexivity.
    + rewrite <- app_assoc. reflexivity.
Qed.

Lemma remove_new_lines_kept (lines : list str) :
  remove_new_lines (map PyStr lines) = kept_lines lines.
Proof. unfold remove_new_lines. rewrite remove_new_lines_from. reflexivity. Qed.

(** ** latin-1 text *)

Lemma latin1_decode (b : bytes) : latin1 (decode_latin1 b).
Proof.
  unfold latin1, decode_latin1. apply Forall_forall. intros c Hc.
  apply in_map_iff in Hc. destruct Hc as [x [<- _]]. apply Byte.to_N_bounded.
Qed.

Lemma latin1_encode (s : str) :
  latin1 s -> encode_latin1 s = Ok (latin1_bytes s).
Proof.
  induction 1 as [|c s Hc Hs IH]; [reflexivity|].
  cbn [encode_latin1 latin1_bytes flat_map].
  destruct (Byte.of_N c) as [b|] eqn:E.
  - fold (latin1_bytes s). rewrite IH. reflexivity.
  - apply Byte.of_N_None_iff in E. lia.
Qed.

Lemma latin1_universal_newlines_fuel (n : nat) :
  forall s, length s <= n -> latin1 s -> latin1 (universal_newlines s).
Proof.
  unfold latin1.
  induction n as [|n IH]; intros [|c s] Hn H; simpl in Hn;
    try (constructor); try lia.
  inversion H as [|? ? Hc Hs]; subst.
  cbn [universal_newlines]. destruct (c =? CR)%N.
  - constructor; [unfold NL; lia|].
    destruct s as [|d s']; [constructor|].
    inversion Hs; subst. simpl in Hn.
    destruct (d =? NL)%N; apply IH; try assumption; simpl; lia.
  - constructor; [assumption|]. apply IH; [lia|assumption].
Qed.

Lemma latin1_universal_newlines (s : str) :
  latin1 s -> latin1 (universal_newlines s).
Proof. exact (latin1_universal_newlines_fuel (length s) s (le_n _)). Qed.

Lemma latin1_rev (s : str) : latin1 s -> latin1 (rev s).
Proof. unfold latin1. apply Forall_rev. Qed.

Lemma latin1_splitlines_from (s : str) :
  forall cur after_cr,
    latin1 cur -> latin1 s -> Forall latin1 (splitlines_from cur after_cr s).
Proof.
  induction s as [|c s IH]; intros cur after_cr Hcur Hs; cbn [splitlines_from].
  - destruct cur; [constructor|].
    constructor; [apply latin1_rev; assumption|constructor].
  - inversion Hs; subst.
    destruct (after_cr && (c =? NL)%N); [apply IH; assumption|].
    destruct (is_linebreak c).
    + constructor; [apply latin1_rev; assumption|].
      apply IH; [constructor|assumption].
    + apply IH; [constructor; assumption|assumption].
Qed.

Lemma latin1_dropwhile (p : char -> bool) (s : str) :
  latin1 s -> latin1 (dropwhile p s).
Proof.
  induction 1 as [|c s Hc Hs IH]; cbn [dropwhile]; [constructor|].
  destruct (p c); [exact IH|constructor; assumption].
Qed.

Lemma latin1_strip (p : char -> bool) (s : str) :
  latin1 s -> latin1 (strip p s).
Proof.
  intros H. unfold strip.
  apply latin1_rev, latin1_dropwhile, latin1_rev, latin1_dropwhile, H.
Qed.

Lemma latin1_kept_lines (lines : list str) :
  Forall latin1 lines -> Forall latin1 (kept_lines lines).
Proof.
  intros H. unfold kept_lines. apply Forall_forall. intros l Hl.
  apply filter_In in Hl. destruct Hl as [Hl _].
  apply in_map_iff in Hl. destruct Hl as [x [<- Hx]].
  apply latin1_strip. rewrite Forall_forall in H. apply H, Hx.
Qed.

Lemma latin1_join (l : list str) :
  Forall latin1 l -> latin1 (join [NL] l).
Proof.
  induction 1 as [|x l Hx Hl IH]; [constructor|].
  cbn [join]. destruct l as [|y l]; [exact Hx|].
  unfold latin1 in *. apply Forall_app. split; [exact Hx|].
  apply Forall_app. split; [|exact IH].
  constructor; [unfold NL; lia|constructor].
Qed.

Lemma latin1_open_read (d : disk) (p : list str) (text : str) :
  open_read d p = Ok text -> latin1 text.
Proof.
  unfold open_read. destruct p as [|top rest]; [discriminate|].
  destruct (str_eqb top extract_directory); [|discriminate].
  destruct (extract_dir d) as [es|]; [|discriminate].
  destruct (tree_read rest es) as [data|e]; cbn [bind]; [|discriminate].
  intros [= <-]. apply latin1_universal_newlines, latin1_decode.
Qed.

(** ** The loop over the files *)

Lemma world_eta (w : world) : mk_world (w_disk w) (w_stdout w ++ []) = w.
Proof. destruct w. cbn. rewrite app_nil_r. reflexivity. Qed.

Section ReadLoop.

Variable convert_to_utf8 : bytes -> result str.

Lemma read_document_record (path : list str) (file : str)
      (docs : list legal_document) (w : world) :
  read_document convert_to_utf8 path file docs w =
  match document_of convert_to_utf8 (w_disk w) path file with
  | Ok None => (Ok docs, w)
  | Ok (Some doc) => (Ok (docs ++ [doc]), w)
  | Raise e => (Raise e, w)
  end.
Proof.
  unfold read_document, document_of, io_bind, get_disk, lift.
  destruct (open_read (w_disk w) (path ++ [file])) as [text|e] eqn:E;
    cbn [bind]; [|reflexivity].
  apply latin1_open_read in E.
  rewrite remove_new_lines_kept. unfold file_record.
  assert (Hk : Forall latin1 (kept_lines (splitlines text))).
  { apply latin1_kept_lines, latin1_splitlines_from; [constructor|exact E]. }
  destruct (kept_lines (splitlines text)) as [|first rest]; [reflexivity|].
  inversion Hk as [|? ? Hfirst Hrest]; subst.
  rewrite (latin1_encode _ (latin1_strip is_whitespace _ Hfirst)).
  destruct (convert_to_utf8 (latin1_bytes (strip is_whitespace first)))
    as [title|e]; cbn [bind]; [|reflexivity].
  rewrite (latin1_encode _ (latin1_join _ Hrest)).
  destruct (convert_to_utf8 (latin1_bytes (join [NL] rest)))
    as [content|e]; cbn [bind]; reflexivity.
Qed.

Lemma visit_file_adds (path : list str) (docs : list legal_document)
      (file : str) (w : world) :
  visit_file convert_to_utf8 path docs file w =
  (Ok (docs ++ docs_of convert_to_utf8 (w_disk w) (path, file)),
   mk_world (w_disk w)
            (w_stdout w ++ messages_of convert_to_utf8 (w_disk w) (path, file))).
Proof.
  unfold visit_file, docs_of, messages_of, is_txt. cbn [fst snd].
  destruct (endswith file (lit ".txt")).
  - unfold io_try. rewrite read_document_record.
    destruct (document_of convert_to_utf8 (w_disk w) path file) as [[doc|]|e].
    + rewrite world_eta. reflexivity.
    + rewrite world_eta, app_nil_r. reflexivity.
    + rewrite app_nil_r. unfold report, message_of.
      destruct (exn_type e); reflexivity.
  - unfold io_ret. rewrite world_eta, app_nil_r. reflexivity.
Qed.

Lemma visit_files_add (path : list str) (files : list str) :
  forall docs w,
    for_fold files (visit_file convert_to_utf8 path) docs w =
    (Ok (docs ++ flat_map (docs_of convert_to_utf8 (w_disk w))
                          (map (pair path) files)),
     mk_world (w_disk w)
              (w_stdout w ++ flat_map (messages_of convert_to_utf8 (w_disk w))
                                      (map (pair path) files))).
Proof.
  induction files as [|file files IH]; intros docs w.
  - cbn. rewrite world_eta, app_nil_r. reflexivity.
  - cbn [for_fold map flat_map]. unfold io_bind at 1.
    rewrite visit_file_adds, IH. cbn [w_disk w_stdout].
    rewrite <- !app_assoc. reflexivity.
Qed.

Lemma visit_directories_add (items : list walk_item) :
  forall docs w,
    for_fold items (visit_directory convert_to_utf8) docs w =
    (Ok (docs ++ flat_map (docs_of convert_to_utf8 (w_disk w)) (files_of items)),
     mk_world (w_disk w)
              (w_stdout w ++ flat_map (messages_of convert_to_utf8 (w_disk w))
                                      (files_of items))).
Proof.
  induction items as [|[[path folders] files] items IH]; intros docs w.
  - cbn. rewrite world_eta, app_nil_r. reflexivity.
  - cbn [for_fold files_of flat_map]. unfold io_bind at 1.
    unfold visit_directory at 1.
    rewrite visit_files_add, IH. cbn [w_disk w_stdout].
    fold (files_of items). rewrite !flat_map_app, <- !app_assoc. reflexivity.
Qed.

End ReadLoop.

(** ** Entries of a directory *)

Lemma str_eqb_eq (a b : str) : str_eqb a b = true <-> a = b.
Proof.
  revert b. induction a as [|x a IH]; intros [|y b]; cbn [str_eqb];
    try (split; [discriminate|discriminate]); [split; reflexivity|].
  rewrite andb_true_iff, N.eqb_eq, IH. split.
  - intros [-> ->]. reflexivity.
  - intros [= -> ->]. split; reflexivity.
Qed.

Lemma str_eqb_refl (a : str) : str_eqb a a = true.
Proof. apply str_eqb_eq. reflexivity. Qed.

Lemma str_eqb_sym (a b : str) : str_eqb a b = str_eqb b a.
Proof.
  destruct (str_eqb a b) eqn:E, (str_eqb b a) eqn:E'; try reflexivity.
  - apply str_eqb_eq in E. subst. rewrite str_eqb_refl in E'. discriminate.
  - apply str_eqb_eq in E'. subst. rewrite str_eqb_refl in E. discriminate.
Qed.

Lemma find_replace (name : str) (y : node) (es : entries) :
  find_entry name es <> None ->
  find_entry name (replace_entry name y es) = Some y.
Proof.
  induction es as [|[n x] es IH]; cbn [find_entry replace_entry];
    [intros H; contradiction|].
  destruct (str_eqb n name) eqn:E; intros H; cbn [find_entry]; rewrite E.
  - reflexivity.
  - apply IH, H.
Qed.

Lemma replace_replace (name : str) (y z : node) (es : entries) :
  replace_entry name z (replace_entry name y es) = replace_entry name z es.
Proof.
  induction es as [|[n x] es IH]; [reflexivity|].
  cbn [replace_entry]. destruct (str_eqb n name) eqn:E;
    cbn [replace_entry]; rewrite E; [reflexivity|].
  rewrite IH. reflexivity.
Qed.

Lemma replace_same (name : str) (x : node) (es : entries) :
  find_entry name es = Some x -> replace_entry name x es = es.
Proof.
  induction es as [|[n y] es IH]; [reflexivity|].
  cbn [find_entry replace_entry]. destruct (str_eqb n name) eqn:E.
  - intros [= ->]. reflexivity.
  - intros H. rewrite (IH H). reflexivity.
Qed.

(** ** The calls of the removal loop *)

Lemma run_ops_app {S} (run : fs_op -> S -> result S) (a b : list fs_op) :
  forall s, run_ops run (a ++ b) s = (s' <- run_ops run a s ;; run_ops run b s').
Proof.
  induction a as [|op a IH]; intros s; [reflexivity|].
  cbn [app run_ops]. destruct (run op s) as [s'|e]; cbn [bind]; [apply IH|reflexivity].
Qed.

Lemma tree_op_push (name : str) (op : fs_op) (es : entries) :
  op_path op <> [] ->
  tree_op (push name op) es = descend name (tree_op op) es.
Proof.
  destruct op as [[|x p]|[|x p]]; cbn [op_path]; intros H;
    try contradiction; reflexivity.
Qed.

Lemma run_ops_push (name : str) (ops : list fs_op) :
  Forall (fun op => op_path op <> []) ops ->
  forall es sub,
    find_entry name es = Some (Dir sub) ->
    run_ops tree_op (map (push name) ops) es =
    (sub' <- run_ops tree_op ops sub ;; Ok (replace_entry name (Dir sub') es)).
Proof.
  induction 1 as [|op ops Hop Hops IH]; intros es sub Hf.
  - cbn. rewrite (replace_same _ _ _ Hf). reflexivity.
  - cbn [map run_ops]. rewrite (tree_op_push _ _ _ Hop).
    unfold descend at 1. rewrite Hf.
    destruct (tree_op op sub) as [sub1|e]; cbn [bind]; [|reflexivity].
    rewrite (IH _ sub1).
    + destruct (run_ops tree_op ops sub1) as [sub2|e]; cbn [bind]; [|reflexivity].
      rewrite replace_replace. reflexivity.
    + apply find_replace. rewrite Hf. discriminate.
Qed.

Lemma item_ops_paths (item : walk_item) :
  Forall (fun op => op_path op <> []) (item_ops item).
Proof.
  destruct item as [[path folders] files]. unfold item_ops.
  apply Forall_app. split; apply Forall_forall; intros op Hop;
    apply in_map_iff in Hop; destruct Hop as [f [<- _]]; cbn;
    destruct path; discriminate.
Qed.

Lemma clear_ops_paths (items : list walk_item) :
  Forall (fun op => op_path op <> []) (flat_map item_ops items).
Proof.
  induction items as [|item items IH]; [constructor|].
  cbn [flat_map]. apply Forall_app. split; [apply item_ops_paths|exact IH].
Qed.

Lemma item_ops_prefix (name : str) (item : walk_item) :
  item_ops (prefix [name] item) = map (push name) (item_ops item).
Proof.
  destruct item as [[path folders] files]. unfold item_ops, prefix.
  rewrite map_app, !map_map. reflexivity.
Qed.

Lemma clear_ops_prefix (name : str) (items : list walk_item) :
  flat_map item_ops (map (prefix [name]) items) =
  map (push name) (flat_map item_ops items).
Proof.
  induction items as [|item items IH]; [reflexivity|].
  cbn [map flat_map]. rewrite map_app, item_ops_prefix, IH. reflexivity.
Qed.

Lemma prefix_app (p q : list str) (item : walk_item) :
  prefix (p ++ q) item = prefix p (prefix q item).
Proof.
  destruct item as [[path folders] files]. unfold prefix.
  rewrite app_assoc. reflexivity.
Qed.

Lemma walk_bottom_up_prefix (n : node) :
  forall p q,
    walk_bottom_up (p ++ q) n = map (prefix p) (walk_bottom_up q n).
Proof.
  induction n as [data|es IH] using node_induction; intros p q; [reflexivity|].
  cbn [walk_bottom_up]. rewrite map_app. cbn [map prefix]. f_equal.
  induction IH as [|[name child] l Hc Hl IHl]; [reflexivity|].
  rewrite map_app, <- IHl. f_equal.
  cbn [snd] in Hc. rewrite <- app_assoc. apply Hc.
Qed.

Lemma walk_prefix (n : node) :
  forall p q, walk (p ++ q) n = map (prefix p) (walk q n).
Proof.
  induction n as [data|es IH] using node_induction; intros p q; [reflexivity|].
  cbn [walk map prefix]. f_equal.
  induction IH as [|[name child] l Hc Hl IHl]; [reflexivity|].
  rewrite map_app, <- IHl. f_equal.
  cbn [snd] in Hc. rewrite <- app_assoc. apply Hc.
Qed.

(** ** The removal loop empties a well-formed tree *)

Lemma has_name_app (name : str) (a b : entries) :
  has_name name (a ++ b) = has_name name a || has_name name b.
Proof. unfold has_name. apply existsb_app. Qed.

Lemma distinct_names_app (a b : entries) :
  distinct_names (a ++ b) = true ->
  distinct_names b = true /\
  forall n x, In (n, x) b -> has_name n a = false.
Proof.
  induction a as [|[m y] a IH]; cbn [app distinct_names].
  - intros H. split; [exact H|reflexivity].
  - intros H. apply andb_true_iff in H. destruct H as [H1 H2].
    destruct (IH H2) as [Hb Ha]. split; [exact Hb|].
    intros n x Hin. cbn [has_name existsb fst]. fold (has_name n a).
    rewrite (Ha n x Hin), orb_false_r.
    apply negb_true_iff in H1. rewrite has_name_app in H1.
    apply orb_false_iff in H1. destruct H1 as [_ H1].
    destruct (str_eqb m n) eqn:E; [|reflexivity].
    apply str_eqb_eq in E. subst m.
    assert (has_name n b = true); [|congruence].
    unfold has_name. apply existsb_exists. exists (n, x).
    split; [exact Hin|apply str_eqb_refl].
Qed.

Lemma has_name_fst (name : str) (a b : entries) :
  map fst a = map fst b -> has_name name a = has_name name b.
Proof.
  revert b. induction a as [|[n x] a IH]; intros [|[m y] b] H;
    try discriminate; [reflexivity|].
  cbn [map fst] in H. injection H as -> H.
  cbn [has_name existsb fst]. fold (has_name name a) (has_name name b).
  rewrite (IH b H). reflexivity.
Qed.

Lemma distinct_names_fst (a b : entries) :
  map fst a = map fst b -> distinct_names a = distinct_names b.
Proof.
  revert b. induction a as [|[n x] a IH]; intros [|[m y] b] H;
    try discriminate; [reflexivity|].
  cbn [map fst] in H. injection H as -> H. cbn [distinct_names].
  rewrite (IH b H), (has_name_fst m a b H). reflexivity.
Qed.

Lemma find_entry_skip (name : str) (pre : entries) (x : node) (l : entries) :
  has_name name pre = false ->
  find_entry name (pre ++ (name, x) :: l) = Some x.
Proof.
  induction pre as [|[n y] pre IH]; cbn [app find_entry has_name existsb fst].
  - rewrite str_eqb_refl. reflexivity.
  - fold (has_name name pre). intros H. apply orb_false_iff in H.
    destruct H as [H1 H2]. rewrite H1. apply IH, H2.
Qed.

Lemma replace_entry_skip (name : str) (pre : entries) (x y : node)
      (l : entries) :
  has_name name pre = false ->
  replace_entry name y (pre ++ (name, x) :: l) = pre ++ (name, y) :: l.
Proof.
  induction pre as [|[n z] pre IH];
    cbn [app replace_entry has_name existsb fst].
  - rewrite str_eqb_refl. reflexivity.
  - fold (has_name name pre). intros H. apply orb_false_iff in H.
    destruct H as [H1 H2]. rewrite H1, (IH H2). reflexivity.
Qed.

Lemma well_formed_dir (es : entries) :
  well_formed (Dir es) = true ->
  distinct_names es = true /\ Forall (fun e => well_formed (snd e) = true) es.
Proof.
  cbn [well_formed]. intros H. apply andb_true_iff in H.
  destruct H as [H1 H2]. split; [exact H1|].
  clear H1. induction es as [|[n x] es IH]; [constructor|].
  apply andb_true_iff in H2. destruct H2 as [Hx Hes].
  constructor; [exact Hx|exact (IH Hes)].
Qed.

Lemma clear_children (l : entries) :
  Forall (fun e => cleared (snd e)) l ->
  Forall (fun e => well_formed (snd e) = true) l ->
  forall pre,
    distinct_names (pre ++ l) = true ->
    run_ops tree_op
            (flat_map item_ops
               ((fix subdirs (l : entries) : list walk_item :=
                   match l with
                   | [] => []
                   | (name, child) :: l' =>
                       walk_bottom_up ([] ++ [name]) child ++ subdirs l'
                   end) l))
            (pre ++ l)
    = Ok (pre ++ emptied l).
Proof.
  induction 1 as [|[name child] l Hc Hl IH]; intros Hwf pre Hd;
    [reflexivity|].
  inversion Hwf as [|? ? Hwc Hwl]; subst. cbn [snd] in Hc, Hwc.
  rewrite flat_map_app, run_ops_app.
  destruct (distinct_names_app _ _ Hd) as [_ Hpre].
  specialize (Hpre name child (or_introl eq_refl)).
  assert (Hstep : run_ops tree_op
                    (flat_map item_ops (walk_bottom_up ([] ++ [name]) child))
                    (pre ++ (name, child) :: l)
                  = Ok ((pre ++ [(name, empty_dir child)]) ++ l)).
  { rewrite <- app_assoc. cbn [app].
    destruct child as [data|sub]; [reflexivity|].
    change ([name]) with ([name] ++ []).
    rewrite walk_bottom_up_prefix, clear_ops_prefix.
    rewrite (run_ops_push name _ (clear_ops_paths _) _ sub
                          (find_entry_skip _ _ _ _ Hpre)).
    rewrite (Hc Hwc sub eq_refl). cbn [bind].
    rewrite (replace_entry_skip _ _ _ _ _ Hpre). reflexivity. }
  rewrite Hstep. cbn [bind].
  rewrite IH; [|exact Hwl|].
  - rewrite <- app_assoc. reflexivity.
  - rewrite <- Hd. apply distinct_names_fst.
    rewrite <- app_assoc, !map_app. reflexivity.
Qed.

Lemma has_name_in (n : str) (x : node) (l : entries) :
  In (n, x) l -> has_name n l = true.
Proof.
  intros H. unfold has_name. apply existsb_exists.
  exists (n, x). split; [exact H|apply str_eqb_refl].
Qed.

Lemma file_names_in (f : str) (l : entries) :
  In f (file_names l) -> has_name f l = true.
Proof.
  unfold file_names. intros H. apply in_flat_map in H.
  destruct H as [[n x] [Hin Hf]]. cbn [fst snd] in Hf.
  destruct x; [|contradiction]. destruct Hf as [<-|[]].
  exact (has_name_in _ _ _ Hin).
Qed.

Lemma unlink_under (n : str) (x : node) (t : entries) (fs : list str) :
  Forall (fun f => str_eqb n f = false) fs ->
  run_ops tree_op (map (fun f => Unlink ([] ++ [f])) fs) ((n, x) :: t) =
  (t' <- run_ops tree_op (map (fun f => Unlink ([] ++ [f])) fs) t ;;
   Ok ((n, x) :: t')).
Proof.
  intros H. revert t. induction H as [|f fs Hf Hfs IH]; intros t;
    [reflexivity|].
  cbn [map run_ops app tree_op tree_remove]. unfold unlink.
  cbn [find_entry remove_entry]. rewrite Hf.
  destruct (find_entry f t) as [[data|sub]|]; cbn [bind]; try reflexivity.
  rewrite IH. reflexivity.
Qed.

Lemma unlink_files (l : entries) :
  distinct_names l = true ->
  run_ops tree_op (map (fun f => Unlink ([] ++ [f])) (file_names l)) l =
  Ok (filter is_dir l).
Proof.
  induction l as [|[n x] l IH]; [reflexivity|].
  cbn [distinct_names]. intros H. apply andb_true_iff in H.
  destruct H as [Hn Hl]. apply negb_true_iff in Hn.
  destruct x as [data|sub].
  - cbn [file_names flat_map snd fst app map run_ops tree_op tree_remove].
    unfold unlink. cbn [find_entry remove_entry]. rewrite str_eqb_refl.
    cbn [bind filter is_dir snd]. apply IH, Hl.
  - cbn [file_names flat_map snd fst app filter is_dir].
    fold (file_names l). rewrite unlink_under.
    + rewrite (IH Hl). reflexivity.
    + apply Forall_forall. intros f Hf.
      destruct (str_eqb n f) eqn:E; [|reflexivity].
      apply str_eqb_eq in E. subst f.
      rewrite (file_names_in _ _ Hf) in Hn. discriminate.
Qed.

Lemma rmdir_empty_dirs (l : entries) :
  Forall (fun e => snd e = Dir []) l ->
  run_ops tree_op (map (fun f => Rmdir ([] ++ [f])) (dir_names l)) l = Ok [].
Proof.
  induction 1 as [|[n x] l Hx Hl IH]; [reflexivity|].
  cbn [snd] in Hx. subst x.
  cbn [dir_names flat_map snd fst app map run_ops tree_op tree_rmdir].
  unfold rmdir_in. cbn [find_entry remove_entry]. rewrite str_eqb_refl.
  cbn [bind]. exact IH.
Qed.

Lemma emptied_names (es : entries) :
  file_names (emptied es) = file_names es /\
  dir_names (filter is_dir (emptied es)) = dir_names es /\
  Forall (fun e => snd e = Dir []) (filter is_dir (emptied es)) /\
  map fst (emptied es) = map fst es.
Proof.
  induction es as [|[n x] es [IH1 [IH2 [IH3 IH4]]]];
    [repeat split; constructor|].
  unfold file_names, dir_names in *.
  destruct x as [data|sub];
    cbn [emptied map fst snd empty_dir filter is_dir flat_map app];
    fold (emptied es); rewrite ?IH1, ?IH2, ?IH4; repeat split;
    try assumption. constructor; [reflexivity|assumption].
Qed.

Lemma removal_clears (n : node) : cleared n.
Proof.
  induction n as [data|es IH] using node_induction; intros Hwf es' Hes;
    [discriminate|].
  injection Hes as <-.
  destruct (well_formed_dir _ Hwf) as [Hd Hall].
  cbn [walk_bottom_up]. rewrite flat_map_app, run_ops_app.
  pose proof (clear_children es IH Hall [] Hd) as Hc.
  change ([] ++ es) with es in Hc. change ([] ++ emptied es) with (emptied es) in Hc.
  rewrite Hc. cbn [bind flat_map].
  rewrite app_nil_r. unfold item_ops. rewrite run_ops_app.
  destruct (emptied_names es) as [Hf [Hdn [Hempty Hfst]]].
  rewrite <- Hf, unlink_files.
  - cbn [bind]. rewrite <- Hdn. apply rmdir_empty_dirs, Hempty.
  - rewrite <- Hd. apply distinct_names_fst, Hfst.
Qed.

(** ** The removal loop on the disk *)

Lemma for_each_app {X} (a b : list X) (body : X -> io unit) (w : world) :
  for_each (a ++ b) body w = (_ <~ for_each a body ;; for_each b body) w.
Proof.
  revert w. unfold for_each.
  induction a as [|x a IH]; intros w; cbn [app for_fold].
  - unfold io_bind, io_ret. reflexivity.
  - unfold io_bind in *.
    destruct (body x w) as [[[]|e] w1]; [|reflexivity].
    rewrite IH. reflexivity.
Qed.

Lemma for_each_map {X Y} (g : X -> Y) (l : list X) (body : Y -> io unit)
      (w : world) :
  for_each (map g l) body w = for_each l (fun x => body (g x)) w.
Proof.
  revert w. unfold for_each.
  induction l as [|x l IH]; intros w; cbn [map for_fold]; [reflexivity|].
  unfold io_bind. destruct (body (g x) w) as [[[]|e] w1]; [apply IH|reflexivity].
Qed.

Lemma remove_directory_content_ops (item : walk_item) (w : world) :
  remove_directory_content item w =
  for_each (item_ops item) (fun op => on_disk (disk_op op)) w.
Proof.
  destruct item as [[path folders] files].
  unfold remove_directory_content, item_ops.
  rewrite for_each_app. unfold io_bind.
  rewrite for_each_map. cbn [disk_op].
  destruct (for_each files _ w) as [[[]|e] w1]; [|reflexivity].
  rewrite for_each_map. reflexivity.
Qed.

Lemma remove_tree_ops (items : list walk_item) (w : world) :
  for_each items remove_directory_content w =
  for_each (flat_map item_ops items) (fun op => on_disk (disk_op op)) w.
Proof.
  revert w. induction items as [|item items IH]; intros w; [reflexivity|].
  cbn [flat_map]. rewrite for_each_app.
  unfold for_each at 1. cbn [for_fold]. unfold io_bind.
  rewrite remove_directory_content_ops.
  destruct (for_each (item_ops item) _ w) as [[[]|e] w1]; [apply IH|reflexivity].
Qed.

Lemma for_each_disk_ops (ops : list fs_op) :
  forall w d',
    run_ops disk_op ops (w_disk w) = Ok d' ->
    for_each ops (fun op => on_disk (disk_op op)) w =
    (Ok tt, mk_world d' (w_stdout w)).
Proof.
  unfold for_each.
  induction ops as [|op ops IH]; intros w d' H; cbn [run_ops for_fold] in *.
  - injection H as <-. destruct w. reflexivity.
  - unfold io_bind, on_disk at 1.
    destruct (disk_op op (w_disk w)) as [d1|e]; cbn [bind] in H; [|discriminate].
    apply (IH (mk_world d1 (w_stdout w)) d' H).
Qed.

Lemma disk_op_push (op : fs_op) (z : option bytes) (es : entries) :
  disk_op (push extract_directory op) (mk_disk z (Some es)) =
  (es' <- tree_op op es ;; Ok (mk_disk z (Some es'))).
Proof.
  destruct op as [p|p]; cbn [disk_op push tree_op];
    unfold os_remove, os_rmdir, on_extract_dir;
    rewrite str_eqb_refl; reflexivity.
Qed.

Lemma run_disk_ops (ops : list fs_op) (z : option bytes) :
  forall es es',
    run_ops tree_op ops es = Ok es' ->
    run_ops disk_op (map (push extract_directory) ops) (mk_disk z (Some es)) =
    Ok (mk_disk z (Some es')).
Proof.
  induction ops as [|op ops IH]; intros es es' H; cbn [run_ops map] in *.
  - injection H as <-. reflexivity.
  - rewrite disk_op_push.
    destruct (tree_op op es) as [es1|e]; cbn [bind] in *; [|discriminate].
    apply IH, H.
Qed.

(** The removal loop deletes all that a well-formed extraction directory
    holds. *)
Lemma remove_tree_succeeds (z : option bytes) (es : entries) (out : list str) :
  well_formed (Dir es) = true ->
  for_each (walk_disk true (mk_disk z (Some es))) remove_directory_content
           (mk_world (mk_disk z (Some es)) out)
  = (Ok tt, mk_world (mk_disk z (Some [])) out).
Proof.
  intros Hwf. rewrite remove_tree_ops.
  apply (for_each_disk_ops _ (mk_world (mk_disk z (Some es)) out)).
  cbn [w_disk walk_disk extract_dir].
  change [extract_directory] with ([extract_directory] ++ []).
  rewrite walk_bottom_up_prefix, clear_ops_prefix.
  apply run_disk_ops. exact (removal_clears (Dir es) Hwf es eq_refl).
Qed.

(** ** A whole call of [load_from_url] *)

Section Load.

Variable requests_get : str -> result bytes.
Variable zip_extractall : bytes -> option entries -> result unit * option entries.
Variable convert_to_utf8 : bytes -> result str.

(** The call on an archive that extracts to the well-formed tree [es]. *)
Lemma load_from_url_extracted (url : str) (w : world) (content : bytes)
      (es : entries) :
  requests_get url = Ok content ->
  zip_extractall content (extract_dir (w_disk w)) = (Ok tt, Some es) ->
  well_formed (Dir es) = true ->
  let d := mk_disk (Some content) (Some es) in
  let files := files_of (walk [extract_directory] (Dir es)) in
  load_from_url requests_get zip_extractall convert_to_utf8 url w =
  (Ok (flat_map (docs_of convert_to_utf8 d) files),
   mk_world fresh (w_stdout w ++ flat_map (messages_of convert_to_utf8 d) files)).
Proof.
  intros Hget Hzip Hwf d files. unfold load_from_url.
  unfold io_bind at 1. unfold lift at 1. rewrite Hget.
  unfold io_bind at 1. unfold write_zip at 1.
  unfold io_bind at 1. unfold extract_zip at 1.
  cbn [w_disk zip_file extract_dir w_stdout]. rewrite Hzip.
  unfold io_bind at 1. unfold get_disk at 1. cbn [w_disk].
  unfold io_bind at 1. rewrite visit_directories_add.
  cbn [w_disk w_stdout walk_disk extract_dir app].
  unfold io_bind at 1. unfold on_disk at 1, remove_zip.
  cbn [w_disk zip_file extract_dir w_stdout].
  unfold io_bind at 1. unfold get_disk at 1. cbn [w_disk].
  unfold io_bind at 1. rewrite (remove_tree_succeeds _ _ _ Hwf).
  unfold io_bind at 1. unfold on_disk at 1, rmdir_extract_dir.
  cbn [w_disk zip_file extract_dir w_stdout]. reflexivity.
Qed.

End Load.

(** ** Claims about [load_from_url] *)

(** C1 (as amended): the lines of a file lose the spaces around them, those
    left empty are dropped and the others keep their order; the first
    remaining line, without the whitespace around it, becomes [Title] and
    the others, joined by single line breaks, become [Text], both through
    [convert_to_utf8] only. For the file [doc1.txt] with the lines
    "Title Line", "", "Body line 1", "Body line 2" the result is the one
    record with [Title] "Title Line", [Filename] "doc1.txt" and [Text]
    "Body line 1\nBody line 2". *)
Theorem archive_file_processing (convert_to_utf8 : bytes -> result str) :
  (forall lines, remove_new_lines (map PyStr lines) = kept_lines lines) /\
  (forall path file docs w,
      read_document convert_to_utf8 path file docs w =
      match document_of convert_to_utf8 (w_disk w) path file with
      | Ok None => (Ok docs, w)
      | Ok (Some doc) => (Ok (docs ++ [doc]), w)
      | Raise e => (Raise e, w)
      end) /\
  (forall requests_get zip_extractall url content w,
      requests_get url = Ok content ->
      zip_extractall content (extract_dir (w_disk w)) = (Ok tt, Some doc1_archive) ->
      ascii_faithful convert_to_utf8 ->
      load_from_url requests_get zip_extractall convert_to_utf8 url w =
      (Ok [mk_doc (lit "Title Line") (Some (lit "doc1.txt"))
                  (lit "Body line 1\nBody line 2")],
       mk_world fresh (w_stdout w))).
Proof.
  split; [exact remove_new_lines_kept|].
  split; [exact (read_document_record convert_to_utf8)|].
  intros requests_get zip_extractall url content w Hget Hzip Hascii.
  rewrite (load_from_url_extracted _ _ _ _ _ _ _ Hget Hzip eq_refl).
  cbv zeta.
  set (files := files_of _). vm_compute in files. subst files.
  unfold flat_map, docs_of, messages_of. cbn [fst snd].
  set (txt := is_txt _). vm_compute in txt. subst txt. cbv iota.
  unfold document_of.
  set (text := open_read _ _). vm_compute in text. subst text.
  cbn [bind]. unfold file_record.
  set (kept := kept_lines _). vm_compute in kept. subst kept. cbv iota.
  rewrite !Hascii by reflexivity. cbn [bind app].
  rewrite app_nil_r. reflexivity.
Qed.

Lemma archive_file_processing_witness :
  load_from_url (serve []) (unpack_to doc1_archive) convert_to_utf8_spec
                some_url (mk_world fresh []) =
  (Ok [mk_doc (lit "Title Line") (Some (lit "doc1.txt"))
              (lit "Body line 1\nBody line 2")],
   mk_world fresh []).
Proof.
  apply (proj2 (proj2 (archive_file_processing convert_to_utf8_spec))
               (serve []) (unpack_to doc1_archive) some_url []
               (mk_world fresh [])).
  - reflexivity.
  - reflexivity.
  - intros b _. reflexivity.
Defined.

(** C1, as the claim states it, fails: the line "  Body  " is not kept as
    it is, neither by [remove_new_lines] nor in the record. *)
Lemma archive_lines_are_stripped :
  remove_new_lines [PyStr (lit "T"); PyStr (lit "  Body  ")] <>
  [lit "T"; lit "  Body  "] /\
  fst (load_from_url (serve []) (unpack_to padded_archive) convert_to_utf8_spec
                     some_url (mk_world fresh [])) <>
  Ok [mk_doc (lit "T") (Some (lit "d.txt")) (lit "  Body  ")].
Proof. split; vm_compute; intros H; discriminate H. Qed.

Lemma disk_op_keeps_zip (op : fs_op) (d d' : disk) :
  disk_op op d = Ok d' -> zip_file d' = zip_file d.
Proof.
  destruct op as [p|p]; cbn [disk_op]; unfold os_remove, os_rmdir, on_extract_dir;
    (destruct p as [|top rest]; [discriminate|]);
    (destruct (str_eqb top extract_directory); [|discriminate]);
    (destruct (extract_dir d) as [es|]; [|discriminate]);
    [destruct (tree_remove rest es)|destruct (tree_rmdir rest es)];
    cbn [bind]; try discriminate; intros [= <-]; reflexivity.
Qed.

Lemma removal_keeps_zip (ops : list fs_op) :
  forall w r w',
    for_each ops (fun op => on_disk (disk_op op)) w = (r, w') ->
    zip_file (w_disk w') = zip_file (w_disk w).
Proof.
  unfold for_each.
  induction ops as [|op ops IH]; intros w r w' H; cbn [for_fold] in H.
  - injection H as _ <-. reflexivity.
  - unfold io_bind, on_disk at 1 in H.
    destruct (disk_op op (w_disk w)) as [d1|e] eqn:E.
    + rewrite (IH _ _ _ H). cbn [w_disk]. exact (disk_op_keeps_zip _ _ _ E).
    + injection H as _ <-. reflexivity.
Qed.

(** C6 (as amended): after every call of [load_from_url] that returns its
    list, neither the archive file [legal_documents.zip] nor the directory
    [legal_documents] exists; a call that fails because the body fetched
    cannot be extracted as an archive leaves [legal_documents.zip] in
    place. *)
Theorem artifacts_removed_on_return
        (requests_get : str -> result bytes)
        (zip_extractall : bytes -> option entries -> result unit * option entries)
        (convert_to_utf8 : bytes -> result str)
        (url : str) (w : world) :
  (forall docs w',
      load_from_url requests_get zip_extractall convert_to_utf8 url w = (Ok docs, w') ->
      zip_file (w_disk w') = None /\ extract_dir (w_disk w') = None) /\
  (forall content e dir,
      requests_get url = Ok content ->
      zip_extractall content (extract_dir (w_disk w)) = (Raise e, dir) ->
      load_from_url requests_get zip_extractall convert_to_utf8 url w =
      (Raise e, mk_world (mk_disk (Some content) dir) (w_stdout w))).
Proof.
  split.
  - intros docs w'. unfold load_from_url.
    unfold io_bind at 1. unfold lift at 1.
    destruct (requests_get url) as [content|e]; [|discriminate].
    unfold io_bind at 1. unfold write_zip at 1.
    unfold io_bind at 1. unfold extract_zip at 1.
    cbn [w_disk zip_file extract_dir w_stdout].
    destruct (zip_extractall content (extract_dir (w_disk w))) as [[[]|e] dir];
      [|discriminate].
    unfold io_bind at 1. unfold get_disk at 1. cbn [w_disk].
    unfold io_bind at 1. rewrite visit_directories_add.
    cbn [w_disk w_stdout].
    unfold io_bind at 1. unfold on_disk at 1, remove_zip.
    cbn [w_disk zip_file extract_dir w_stdout].
    unfold io_bind at 1. unfold get_disk at 1. cbn [w_disk].
    unfold io_bind at 1. rewrite remove_tree_ops.
    destruct (for_each _ _ _) as [[[]|e] w1] eqn:E; [|discriminate].
    apply removal_keeps_zip in E. cbn [w_disk zip_file] in E.
    unfold io_bind, on_disk, rmdir_extract_dir.
    destruct (extract_dir (w_disk w1)) as [[|entry es]|]; try discriminate.
    unfold io_ret. intros [= _ <-]. cbn [w_disk zip_file extract_dir].
    split; [exact E|reflexivity].
  - intros content e dir Hget Hzip. unfold load_from_url.
    unfold io_bind at 1. unfold lift at 1. rewrite Hget.
    unfold io_bind at 1. unfold write_zip at 1.
    unfold io_bind at 1. unfold extract_zip at 1.
    cbn [w_disk zip_file extract_dir w_stdout]. rewrite Hzip. reflexivity.
Qed.

Lemma artifacts_removed_on_return_witness :
  (load_from_url (serve []) (unpack_to mixed_archive) convert_to_utf8_spec
                 some_url (mk_world fresh []) =
   (Ok [mk_doc (lit "A") (Some (lit "a.txt")) (lit "first");
        mk_doc (lit "C") (Some (lit "c.txt")) (lit "last");
        mk_doc (lit "T") (Some (lit "bad.txt")) [233%N]],
    mk_world fresh []) /\
   zip_file (w_disk (mk_world fresh [])) = None /\
   extract_dir (w_disk (mk_world fresh [])) = None) /\
  load_from_url (serve (bytes_lit "<html>")) reject_archive convert_to_utf8_spec
                some_url (mk_world fresh []) =
  (Raise bad_zip, mk_world (mk_disk (Some (bytes_lit "<html>")) None) []).
Proof.
  split; [split; [vm_compute; reflexivity|]|].
  - apply (proj1 (artifacts_removed_on_return
                    (serve []) (unpack_to mixed_archive) convert_to_utf8_spec
                    some_url (mk_world fresh []))
                 [mk_doc (lit "A") (Some (lit "a.txt")) (lit "first");
                  mk_doc (lit "C") (Some (lit "c.txt")) (lit "last");
                  mk_doc (lit "T") (Some (lit "bad.txt")) [233%N]]
                 (mk_world fresh [])).
    vm_compute. reflexivity.
  - apply (proj2 (artifacts_removed_on_return
                    (serve (bytes_lit "<html>")) reject_archive
                    convert_to_utf8_spec some_url (mk_world fresh []))
                 (bytes_lit "<html>") bad_zip None); reflexivity.
Defined.

(** C6, as the claim states it, fails: when the body fetched is not an
    archive the call fails and [legal_documents.zip] is still there. *)
Lemma archive_file_left_behind :
  fst (load_from_url (serve (bytes_lit "<html>")) reject_archive
                     convert_to_utf8_spec some_url (mk_world fresh []))
  = Raise bad_zip /\
  zip_file (w_disk (snd (load_from_url (serve (bytes_lit "<html>"))
                                       reject_archive convert_to_utf8_spec
                                       some_url (mk_world fresh []))))
  <> None.
Proof. split; [reflexivity|]. vm_compute. intros H. discriminate H. Qed.

(** C7: a file whose processing raises an exception adds no record, its
    problem is printed, and the files before and after it are processed as
    if it were not there; the call returns its list. The archive extracts to
    a tree [es] with one entry per name. *)
Theorem per_file_errors_are_skipped
        (requests_get : str -> result bytes)
        (zip_extractall : bytes -> option entries -> result unit * option entries)
        (convert_to_utf8 : bytes -> result str)
        (url : str) (w : world) (content : bytes) (es : entries) :
  requests_get url = Ok content ->
  zip_extractall content (extract_dir (w_disk w)) = (Ok tt, Some es) ->
  well_formed (Dir es) = true ->
  let d := mk_disk (Some content) (Some es) in
  let files := files_of (walk [extract_directory] (Dir es)) in
  let docs := docs_of convert_to_utf8 d in
  let messages := messages_of convert_to_utf8 d in
  load_from_url requests_get zip_extractall convert_to_utf8 url w =
  (Ok (flat_map docs files),
   mk_world fresh (w_stdout w ++ flat_map messages files)) /\
  forall before path file after e,
    files = before ++ (path, file) :: after ->
    is_txt file = true ->
    fst (read_document convert_to_utf8 path file [] (mk_world d [])) = Raise e ->
    flat_map docs files = flat_map docs before ++ flat_map docs after /\
    flat_map messages files =
    flat_map messages before ++
    message_of (path_str (path ++ [file])) e :: flat_map messages after.
Proof.
  intros Hget Hzip Hwf d files docs messages. split.
  - exact (load_from_url_extracted _ _ _ _ _ _ _ Hget Hzip Hwf).
  - intros before path file after e Hfiles Htxt Hraise.
    rewrite read_document_record in Hraise. cbn [w_disk] in Hraise.
    rewrite Hfiles, !flat_map_app. cbn [flat_map].
    unfold docs at 2, messages at 2, docs_of, messages_of. cbn [fst snd].
    rewrite Htxt.
    destruct (document_of convert_to_utf8 d path file) as [[doc|]|e'];
      try discriminate.
    cbn [fst] in Hraise. injection Hraise as ->. split; reflexivity.
Qed.

Lemma per_file_errors_are_skipped_witness :
  load_from_url (serve []) (unpack_to mixed_archive) convert_ascii_only
                some_url (mk_world fresh []) =
  (Ok [mk_doc (lit "A") (Some (lit "a.txt")) (lit "first");
       mk_doc (lit "C") (Some (lit "c.txt")) (lit "last")],
   mk_world fresh
            [lit "**Skipping file legal_documents/sub/bad.txt due to encoding issues.**\n\n"]) /\
  (let d := mk_disk (Some []) (Some mixed_archive) in
   let files := files_of (walk [extract_directory] (Dir mixed_archive)) in
   let before := [([extract_directory], lit "a.txt");
                  ([extract_directory], lit "notes.md");
                  ([extract_directory], lit "c.txt")] in
   flat_map (docs_of convert_ascii_only d) files =
   flat_map (docs_of convert_ascii_only d) before ++ [] /\
   flat_map (messages_of convert_ascii_only d) files =
   flat_map (messages_of convert_ascii_only d) before ++
   [message_of (lit "legal_documents/sub/bad.txt")
               (mk_exn UnicodeDecodeError
                       (lit "'ascii' codec can't decode byte"))]).
Proof.
  split.
  - exact (proj1 (per_file_errors_are_skipped
                    (serve []) (unpack_to mixed_archive) convert_ascii_only
                    some_url (mk_world fresh []) [] mixed_archive
                    eq_refl eq_refl eq_refl)).
  - exact (proj2 (per_file_errors_are_skipped
                    (serve []) (unpack_to mixed_archive) convert_ascii_only
                    some_url (mk_world fresh []) [] mixed_archive
                    eq_refl eq_refl eq_refl)
                 [([extract_directory], lit "a.txt");
                  ([extract_directory], lit "notes.md");
                  ([extract_directory], lit "c.txt")]
                 [extract_directory; lit "sub"] (lit "bad.txt") []
                 (mk_exn UnicodeDecodeError
                         (lit "'ascii' codec can't decode byte"))
                 eq_refl eq_refl eq_refl).
Defined.

(** ** The tabular loader *)

Lemma clean_cell_cleaned (c : cell) : clean_cell c = Ok (PyStr (cleaned c)).
Proof. destruct c; reflexivity. Qed.

Lemma clean_column (text : list cell) :
  map_result clean_cell text = Ok (map (fun c => PyStr (cleaned c)) text).
Proof.
  induction text as [|c text IH]; [reflexivity|].
  cbn [map_result map]. rewrite clean_cell_cleaned, IH. reflexivity.
Qed.

Lemma keep_texts_survivors (text : list cell) :
  keep_texts (map (fun c => PyStr (cleaned c)) text) = survivors text.
Proof.
  unfold keep_texts, survivors.
  induction text as [|c text IH]; [reflexivity|].
  cbn [map flat_map filter]. rewrite IH.
  destruct (cleaned c); reflexivity.
Qed.

Lemma df_column_in_columns (name : str) (df : DataFrame) (text : list cell) :
  df_column name (df_columns df) = Some text -> in_columns name df = true.
Proof.
  unfold in_columns. induction (df_columns df) as [|[n c] cols IH];
    cbn [df_column existsb fst]; [discriminate|].
  destruct (str_eqb n name); [reflexivity|exact IH].
Qed.

Lemma in_columns_df_column (name : str) (df : DataFrame) :
  in_columns name df = true ->
  exists text, df_column name (df_columns df) = Some text.
Proof.
  unfold in_columns. induction (df_columns df) as [|[n c] cols IH];
    cbn [df_column existsb fst]; [discriminate|].
  destruct (str_eqb n name); [intros _; exists c; reflexivity|exact IH].
Qed.

Section Tabular.

Variable read_csv : str -> result DataFrame.
Variable str_title : str -> str.

Lemma load_from_csv_pairs (file_path : str) (df : DataFrame)
      (text : list cell) :
  read_csv file_path = Ok df ->
  df_column (lit "Text") (df_columns df) = Some text ->
  load_from_csv read_csv str_title file_path =
  pair_up str_title (df_index df) (survivors text) [].
Proof.
  intros Hread Hcol. unfold load_from_csv. rewrite Hread. cbn [bind].
  rewrite (df_column_in_columns _ _ _ Hcol), Hcol. cbn [negb].
  rewrite clean_column. cbn [bind]. rewrite keep_texts_survivors. reflexivity.
Qed.

Lemma load_from_csv_returns (file_path : str) (docs : list legal_document) :
  load_from_csv read_csv str_title file_path = Ok docs ->
  exists df text,
    read_csv file_path = Ok df /\
    df_column (lit "Text") (df_columns df) = Some text /\
    pair_up str_title (df_index df) (survivors text) [] = Ok docs.
Proof.
  intros H. destruct (read_csv file_path) as [df|e] eqn:Hread.
  - destruct (in_columns (lit "Text") df) eqn:Hin.
    + destruct (in_columns_df_column _ _ Hin) as [text Hcol].
      exists df, text. rewrite <- (load_from_csv_pairs _ _ _ Hread Hcol).
      repeat split; assumption.
    + unfold load_from_csv in H. rewrite Hread in H. cbn [bind] in H.
      rewrite Hin in H. discriminate.
  - unfold load_from_csv in H. rewrite Hread in H. discriminate.
Qed.

Lemma pair_up_labels (names : list str) :
  forall texts acc,
    pair_up str_title (map CellStr names) texts acc =
    Ok (acc ++ map (fun p => mk_doc (str_title (fst p)) None (snd p))
                   (combine names texts)).
Proof.
  induction names as [|n names IH]; intros texts acc; cbn [map pair_up combine].
  - rewrite app_nil_r. reflexivity.
  - destruct texts as [|t texts]; [rewrite app_nil_r; reflexivity|].
    cbn [cell_title bind map fst snd]. rewrite IH, <- app_assoc. reflexivity.
Qed.

Lemma pair_up_raises (names : list cell) :
  forall texts acc k label,
    nth_error names k = Some label ->
    is_label label = false ->
    k < length texts ->
    exists e, pair_up str_title names texts acc = Raise e /\
              exn_type e = AttributeError.
Proof.
  induction names as [|n names IH]; intros texts acc k label Hk Hl Hlen.
  - destruct k; discriminate.
  - destruct texts as [|t texts]; [simpl in Hlen; lia|].
    cbn [pair_up]. destruct n as [s| | |];
      try (eexists; split; reflexivity).
    cbn [cell_title bind]. destruct k as [|k].
    + injection Hk as <-. discriminate.
    + apply (IH texts _ k label Hk Hl). simpl in Hlen. lia.
Qed.

Lemma pair_up_returns (names : list cell) :
  forall texts acc docs,
    pair_up str_title names texts acc = Ok docs ->
    exists new,
      docs = acc ++ new /\
      forall k doc,
        nth_error new k = Some doc ->
        exists s, nth_error names k = Some (CellStr s) /\
                  Title doc = str_title s /\
                  nth_error texts k = Some (Text doc).
Proof.
  induction names as [|n names IH]; intros texts acc docs H; cbn [pair_up] in H.
  - injection H as <-. exists []. rewrite app_nil_r. split; [reflexivity|].
    intros [|k] doc Hk; discriminate.
  - destruct texts as [|t texts].
    + injection H as <-. exists []. rewrite app_nil_r. split; [reflexivity|].
      intros [|k] doc Hk; discriminate.
    + destruct n as [s| | |]; try discriminate. cbn [cell_title bind] in H.
      destruct (IH _ _ _ H) as [new [Hdocs Hnew]].
      exists (mk_doc (str_title s) None t :: new). split.
      * rewrite Hdocs, <- app_assoc. reflexivity.
      * intros [|k] doc Hk.
        -- injection Hk as <-. exists s. repeat split.
        -- exact (Hnew k doc Hk).
Qed.

End Tabular.

(** ** Claims about [load_from_csv] *)

(** C2: the cleaned texts are filtered on their own and then paired with the
    labels by position: the k-th record holds the k-th label and the k-th
    cleaned text that is kept, so the labels are not filtered with the
    texts and a text follows the label of an earlier row once a row has
    been filtered. For the rows (alpha, "Hello\n\nWorld"), (beta, missing)
    the result is the one record with [Title] "Alpha" and [Text]
    "Hello\n\nWorld"; for the rows (alpha, missing), (beta, "World") it is
    the one record with [Title] "Alpha" and [Text] "World". *)
Theorem tabular_pairing (read_csv : str -> result DataFrame)
        (str_title : str -> str) (file_path : str) :
  (forall df text names,
      read_csv file_path = Ok df ->
      df_column (lit "Text") (df_columns df) = Some text ->
      df_index df = map CellStr names ->
      load_from_csv read_csv str_title file_path =
      Ok (map (fun p => mk_doc (str_title (fst p)) None (snd p))
              (combine names (survivors text)))) /\
  (read_csv file_path = Ok alpha_beta_frame ->
   title_ascii str_title ->
   load_from_csv read_csv str_title file_path =
   Ok [mk_doc (lit "Alpha") None (lit "Hello\n\nWorld")]) /\
  (read_csv file_path = Ok shifted_frame ->
   title_ascii str_title ->
   load_from_csv read_csv str_title file_path =
   Ok [mk_doc (lit "Alpha") None (lit "World")]).
Proof.
  assert (Hgen : forall df text names,
             read_csv file_path = Ok df ->
             df_column (lit "Text") (df_columns df) = Some text ->
             df_index df = map CellStr names ->
             load_from_csv read_csv str_title file_path =
             Ok (map (fun p => mk_doc (str_title (fst p)) None (snd p))
                     (combine names (survivors text)))).
  { intros df text names Hread Hcol Hidx.
    rewrite (load_from_csv_pairs _ _ _ _ _ Hread Hcol), Hidx.
    apply pair_up_labels. }
  split; [exact Hgen|]. split; intros Hread Htitle.
  - rewrite (Hgen _ _ [lit "alpha"; lit "beta"] Hread eq_refl eq_refl).
    set (pairs := combine _ _). vm_compute in pairs. subst pairs.
    cbn [map fst snd]. rewrite Htitle by reflexivity. reflexivity.
  - rewrite (Hgen _ _ [lit "alpha"; lit "beta"] Hread eq_refl eq_refl).
    set (pairs := combine _ _). vm_compute in pairs. subst pairs.
    cbn [map fst snd]. rewrite Htitle by reflexivity. reflexivity.
Qed.

Lemma tabular_pairing_witness :
  load_from_csv (csv_holding alpha_beta_frame) ascii_title some_path =
  Ok [mk_doc (lit "Alpha") None (lit "Hello\n\nWorld")] /\
  load_from_csv (csv_holding shifted_frame) ascii_title some_path =
  Ok [mk_doc (lit "Alpha") None (lit "World")] /\
  load_from_csv (csv_holding shifted_frame) ascii_title some_path =
  Ok (map (fun p => mk_doc (ascii_title (fst p)) None (snd p))
          (combine [lit "alpha"; lit "beta"]
                   (survivors [NaN; CellStr (lit "World")]))).
Proof.
  split; [|split].
  - apply (proj1 (proj2 (tabular_pairing (csv_holding alpha_beta_frame)
                                         ascii_title some_path)));
      [reflexivity|intros s _; reflexivity].
  - apply (proj2 (proj2 (tabular_pairing (csv_holding shifted_frame)
                                         ascii_title some_path)));
      [reflexivity|intros s _; reflexivity].
  - apply (proj1 (tabular_pairing (csv_holding shifted_frame)
                                  ascii_title some_path) shifted_frame);
      reflexivity.
Defined.

(** C8: when the frame read has no column named [Text], [load_from_csv]
    raises [ValueError], whatever the rows hold, and returns no list. *)
Theorem missing_text_column_raises (read_csv : str -> result DataFrame)
        (str_title : str -> str) (file_path : str) (df : DataFrame) :
  read_csv file_path = Ok df ->
  in_columns (lit "Text") df = false ->
  load_from_csv read_csv str_title file_path = Raise missing_text_column /\
  exn_type missing_text_column = ValueError.
Proof.
  intros Hread Hin. unfold load_from_csv. rewrite Hread. cbn [bind].
  rewrite Hin. split; reflexivity.
Qed.

Lemma missing_text_column_raises_witness :
  load_from_csv (csv_holding no_text_frame) ascii_title some_path =
  Raise missing_text_column /\
  exn_type missing_text_column = ValueError.
Proof.
  apply (missing_text_column_raises (csv_holding no_text_frame) ascii_title
                                    some_path no_text_frame);
    reflexivity.
Defined.

(** C10: [title] is called on every label that is paired with a kept text,
    whatever its type: a label that is not a string makes the call raise
    [AttributeError]; and in a list that is returned the k-th record has
    the title-cased k-th label, a string, as its [Title]. *)
Theorem label_type_unchecked (read_csv : str -> result DataFrame)
        (str_title : str -> str) (file_path : str) (df : DataFrame)
        (text : list cell) :
  read_csv file_path = Ok df ->
  df_column (lit "Text") (df_columns df) = Some text ->
  (forall k label,
      nth_error (df_index df) k = Some label ->
      is_label label = false ->
      k < length (survivors text) ->
      exists e, load_from_csv read_csv str_title file_path = Raise e /\
                exn_type e = AttributeError) /\
  (forall docs,
      load_from_csv read_csv str_title file_path = Ok docs ->
      forall k doc,
        nth_error docs k = Some doc ->
        exists s, nth_error (df_index df) k = Some (CellStr s) /\
                  Title doc = str_title s).
Proof.
  intros Hread Hcol. rewrite (load_from_csv_pairs _ _ _ _ _ Hread Hcol). split.
  - intros k label Hk Hl Hlen. exact (pair_up_raises _ _ _ _ _ _ Hk Hl Hlen).
  - intros docs H k doc Hk.
    destruct (pair_up_returns _ _ _ _ _ H) as [new [-> Hnew]].
    destruct (Hnew k doc Hk) as [s [Hs [Ht _]]]. exists s. split; assumption.
Qed.

Lemma label_type_unchecked_witness :
  exists e,
    load_from_csv (csv_holding numbered_frame) ascii_title some_path = Raise e /\
    exn_type e = AttributeError.
Proof.
  apply (proj1 (label_type_unchecked
                  (csv_holding numbered_frame) ascii_title some_path
                  numbered_frame [CellStr (lit "first"); CellStr (lit "second")]
                  eq_refl eq_refl) 0 (CellInt 0)).
  - reflexivity.
  - reflexivity.
  - vm_compute. lia.
Defined.

(** ** Documents that are emitted *)

Lemma load_from_url_returns
      (requests_get : str -> result bytes)
      (zip_extractall : bytes -> option entries -> result unit * option entries)
      (convert_to_utf8 : bytes -> result str)
      (url : str) (w w' : world) (docs : list legal_document) :
  load_from_url requests_get zip_extractall convert_to_utf8 url w = (Ok docs, w') ->
  exists content es,
    requests_get url = Ok content /\
    zip_extractall content (extract_dir (w_disk w)) = (Ok tt, Some es) /\
    docs = flat_map (docs_of convert_to_utf8 (mk_disk (Some content) (Some es)))
                    (files_of (walk [extract_directory] (Dir es))).
Proof.
  unfold load_from_url.
  unfold io_bind at 1. unfold lift at 1.
  destruct (requests_get url) as [content|e]; [|discriminate].
  unfold io_bind at 1. unfold write_zip at 1.
  unfold io_bind at 1. unfold extract_zip at 1.
  cbn [w_disk zip_file extract_dir w_stdout].
  destruct (zip_extractall content (extract_dir (w_disk w)))
    as [[[]|e] [es|]] eqn:Hzip; try discriminate.
  unfold io_bind at 1. unfold get_disk at 1. cbn [w_disk].
  unfold io_bind at 1. rewrite visit_directories_add.
  cbn [w_disk w_stdout app walk_disk extract_dir].
  unfold io_bind at 1. unfold on_disk at 1, remove_zip.
  cbn [w_disk zip_file extract_dir w_stdout].
  unfold io_bind at 1. unfold get_disk at 1. cbn [w_disk].
  unfold io_bind at 1.
  destruct (for_each _ _ _) as [[[]|e] w1]; [|discriminate].
  unfold io_bind.
  destruct (on_disk rmdir_extract_dir w1) as [[[]|e] w2]; [|discriminate].
  unfold io_ret. intros [= <- _]. exists content, es.
  split; [reflexivity|]. split; [exact Hzip|reflexivity].
Qed.

Lemma kept_line_origin (lines : list str) (first : str) :
  In first (kept_lines lines) ->
  exists line, In line lines /\ strip is_space line = first /\ first <> [].
Proof.
  unfold kept_lines. intros H. apply filter_In in H. destruct H as [H Hn].
  apply in_map_iff in H. destruct H as [line [Hl Hin]].
  exists line. repeat split; [exact Hin|exact Hl|].
  intros ->. discriminate.
Qed.

Lemma survivor_origin (text : list cell) (t : str) :
  In t (survivors text) ->
  t <> [] /\ exists c, In c text /\ clean_cell c = Ok (PyStr t).
Proof.
  unfold survivors. intros H. apply filter_In in H. destruct H as [H Hn].
  apply in_map_iff in H. destruct H as [c [Hc Hin]]. split.
  - intros ->. discriminate.
  - exists c. split; [exact Hin|]. rewrite clean_cell_cleaned, Hc. reflexivity.
Qed.

(** C9 (as amended): a record of [load_from_url] comes from a file of the
    extracted archive whose name ends in [.txt] and that has a line left
    after the spaces around it are removed; the first such line gives the
    title and the lines after it, joined, the text, which may be empty. A
    record of [load_from_csv] holds the cleaned text of a row, and that text
    is not empty. *)
Theorem emitted_documents_have_text :
  (forall (requests_get : str -> result bytes)
          (zip_extractall : bytes -> option entries -> result unit * option entries)
          (convert_to_utf8 : bytes -> result str)
          (url : str) (w w' : world) (docs : list legal_document)
          (doc : legal_document),
      load_from_url requests_get zip_extractall convert_to_utf8 url w = (Ok docs, w') ->
      In doc docs ->
      exists content es path file text first rest,
        requests_get url = Ok content /\
        zip_extractall content (extract_dir (w_disk w)) = (Ok tt, Some es) /\
        In (path, file) (files_of (walk [extract_directory] (Dir es))) /\
        endswith file (lit ".txt") = true /\
        open_read (mk_disk (Some content) (Some es)) (path ++ [file]) = Ok text /\
        remove_new_lines (map PyStr (splitlines text)) = first :: rest /\
        (exists line, In line (splitlines text) /\
                      strip is_space line = first /\ first <> []) /\
        convert_to_utf8 (latin1_bytes (strip is_whitespace first)) = Ok (Title doc) /\
        convert_to_utf8 (latin1_bytes (join [NL] rest)) = Ok (Text doc) /\
        Filename doc = Some file) /\
  (forall (read_csv : str -> result DataFrame) (str_title : str -> str)
          (file_path : str) (docs : list legal_document) (doc : legal_document),
      load_from_csv read_csv str_title file_path = Ok docs ->
      In doc docs ->
      Text doc <> [] /\
      exists df text c,
        read_csv file_path = Ok df /\
        df_column (lit "Text") (df_columns df) = Some text /\
        In c text /\
        clean_cell c = Ok (PyStr (Text doc))).
Proof.
  split.
  - intros requests_get zip_extractall convert_to_utf8 url w w' docs doc H Hin.
    destruct (load_from_url_returns _ _ _ _ _ _ _ H)
      as [content [es [Hget [Hzip ->]]]].
    apply in_flat_map in Hin. destruct Hin as [[path file] [Hfile Hdoc]].
    unfold docs_of in Hdoc. cbn [fst snd] in Hdoc. unfold is_txt in Hdoc.
    destruct (endswith file (lit ".txt")) eqn:Htxt; [|contradiction].
    unfold document_of in Hdoc.
    destruct (open_read (mk_disk (Some content) (Some es)) (path ++ [file]))
      as [text|e] eqn:Hread; cbn [bind] in Hdoc; [|contradiction].
    unfold file_record in Hdoc.
    destruct (kept_lines (splitlines text)) as [|first rest] eqn:Hkept;
      [contradiction|].
    destruct (convert_to_utf8 (latin1_bytes (strip is_whitespace first)))
      as [title|e] eqn:Htitle; cbn [bind] in Hdoc; [|contradiction].
    destruct (convert_to_utf8 (latin1_bytes (join [NL] rest)))
      as [body|e] eqn:Hbody; cbn [bind] in Hdoc; [|contradiction].
    destruct Hdoc as [<-|[]].
    exists content, es, path, file, text, first, rest.
    rewrite remove_new_lines_kept.
    repeat split; try assumption; try reflexivity.
    apply kept_line_origin. rewrite Hkept. left. reflexivity.
  - intros read_csv str_title file_path docs doc H Hin.
    destruct (load_from_csv_returns _ _ _ _ H) as [df [text [Hread [Hcol Hpair]]]].
    destruct (pair_up_returns _ _ _ _ _ Hpair) as [new [-> Hnew]].
    cbn [app] in Hin. apply In_nth_error in Hin. destruct Hin as [k Hk].
    destruct (Hnew k doc Hk) as [s [_ [_ Ht]]].
    apply nth_error_In in Ht.
    destruct (survivor_origin _ _ Ht) as [Hne [c [Hc Hclean]]].
    split; [exact Hne|]. exists df, text, c. repeat split; assumption.
Qed.

Lemma emitted_documents_have_text_witness :
  (exists content es path file text first rest,
      serve [] some_url = Ok content /\
      unpack_to doc1_archive content (extract_dir (w_disk (mk_world fresh []))) =
      (Ok tt, Some es) /\
      In (path, file) (files_of (walk [extract_directory] (Dir es))) /\
      endswith file (lit ".txt") = true /\
      open_read (mk_disk (Some content) (Some es)) (path ++ [file]) = Ok text /\
      remove_new_lines (map PyStr (splitlines text)) = first :: rest /\
      (exists line, In line (splitlines text) /\
                    strip is_space line = first /\ first <> []) /\
      convert_to_utf8_spec (latin1_bytes (strip is_whitespace first)) =
      Ok (Title (mk_doc (lit "Title Line") (Some (lit "doc1.txt"))
                        (lit "Body line 1\nBody line 2"))) /\
      convert_to_utf8_spec (latin1_bytes (join [NL] rest)) =
      Ok (Text (mk_doc (lit "Title Line") (Some (lit "doc1.txt"))
                       (lit "Body line 1\nBody line 2"))) /\
      Filename (mk_doc (lit "Title Line") (Some (lit "doc1.txt"))
                       (lit "Body line 1\nBody line 2")) = Some file) /\
  (Text (mk_doc (lit "Alpha") None (lit "Hello\n\nWorld")) <> [] /\
   exists df text c,
     csv_holding alpha_beta_frame some_path = Ok df /\
     df_column (lit "Text") (df_columns df) = Some text /\
     In c text /\
     clean_cell c =
     Ok (PyStr (Text (mk_doc (lit "Alpha") None (lit "Hello\n\nWorld"))))).
Proof.
  split.
  - apply (proj1 emitted_documents_have_text
                 (serve []) (unpack_to doc1_archive) convert_to_utf8_spec
                 some_url (mk_world fresh []) (mk_world fresh [])
                 [mk_doc (lit "Title Line") (Some (lit "doc1.txt"))
                         (lit "Body line 1\nBody line 2")]).
    + vm_compute. reflexivity.
    + left. reflexivity.
  - apply (proj2 emitted_documents_have_text
                 (csv_holding alpha_beta_frame) ascii_title some_path
                 [mk_doc (lit "Alpha") None (lit "Hello\n\nWorld")]).
    + reflexivity.
    + left. reflexivity.
Defined.

(** C9, as the claim states it, fails: a file that holds a title line and
    nothing else gives a record, and the text of that record is empty. *)
Lemma title_only_file_has_empty_text :
  exists doc,
    fst (load_from_url (serve []) (unpack_to title_only_archive)
                       convert_to_utf8_spec some_url (mk_world fresh []))
    = Ok [doc] /\
    Filename doc = Some (lit "t.txt") /\
    Text doc = [].
Proof.
  exists (mk_doc (lit "Only title") (Some (lit "t.txt")) []).
  split; [vm_compute; reflexivity|]. split; reflexivity.
Qed.

(** * Further properties *)

(** ** [remove_new_lines] on any list *)

Lemma dropwhile_head {A} (p : A -> bool) (l : list A) :
  match dropwhile p l with x :: _ => p x = false | [] => True end.
Proof.
  induction l as [|x l IH]; [exact I|].
  cbn [dropwhile]. destruct (p x) eqn:E; [exact IH|exact E].
Qed.

Lemma dropwhile_fixed {A} (p : A -> bool) (l : list A) :
  match l with x :: _ => p x = false | [] => True end -> dropwhile p l = l.
Proof.
  destruct l as [|x l]; [reflexivity|]. intros H.
  cbn [dropwhile]. rewrite H. reflexivity.
Qed.

Lemma strip_ends_clear (p : char -> bool) (s : str) : ends_clear p (strip p s).
Proof.
  unfold ends_clear, strip. rewrite rev_involutive. split.
  - destruct (dropwhile_split p (rev (dropwhile p s))) as [pre [H _]].
    pose proof (dropwhile_head p s) as Hs.
    apply (f_equal (@rev char)) in H. rewrite rev_involutive, rev_app_distr in H.
    destruct (rev (dropwhile p (rev (dropwhile p s)))) as [|x u]; [exact I|].
    rewrite H in Hs. exact Hs.
  - apply dropwhile_head.
Qed.

Lemma strip_fixed (p : char -> bool) (s : str) :
  ends_clear p s -> strip p s = s.
Proof.
  intros [H1 H2]. unfold strip.
  rewrite (dropwhile_fixed p s H1), (dropwhile_fixed p (rev s) H2).
  apply rev_involutive.
Qed.

Lemma strip_strip (p : char -> bool) (s : str) :
  strip p (strip p s) = strip p s.
Proof. apply strip_fixed, strip_ends_clear. Qed.

Lemma remove_new_lines_any_from (lines : list pyval) :
  forall acc,
    fold_left remove_new_lines_step lines acc =
    acc ++ kept_lines (strings_of lines).
Proof.
  induction lines as [|v lines IH]; intros acc; cbn [fold_left].
  - cbn. rewrite app_nil_r. reflexivity.
  - rewrite IH. unfold kept_lines, strings_of. cbn [flat_map].
    fold (strings_of lines).
    destruct v as [| | | |s|]; cbn [remove_new_lines_step app]; try reflexivity.
    cbn [map filter]. destruct (strip is_space s) as [|c r]; cbn [nonempty].
    + reflexivity.
    + rewrite <- app_assoc. reflexivity.
Qed.

Lemma remove_new_lines_any (lines : list pyval) :
  remove_new_lines lines = kept_lines (strings_of lines).
Proof. unfold remove_new_lines. rewrite remove_new_lines_any_from. reflexivity. Qed.

Lemma strings_of_PyStr (l : list str) : strings_of (map PyStr l) = l.
Proof.
  induction l as [|x l IH]; [reflexivity|].
  cbn [map strings_of flat_map app]. fold (strings_of (map PyStr l)).
  rewrite IH. reflexivity.
Qed.

Lemma in_strings_of (s : str) (lines : list pyval) :
  In s (strings_of lines) <-> In (PyStr s) lines.
Proof.
  unfold strings_of. rewrite in_flat_map. split.
  - intros [v [Hv Hs]]. destruct v; try contradiction.
    destruct Hs as [<-|[]]. exact Hv.
  - intros H. exists (PyStr s). split; [exact H|left; reflexivity].
Qed.

(** X1: every line [remove_new_lines] returns is a string element of its
    argument without the spaces around it, is not empty, and neither starts
    nor ends with a space; elements that are not strings give nothing. *)
Theorem remove_new_lines_lines (lines : list pyval) (l : str) :
  In l (remove_new_lines lines) <->
  l <> [] /\ exists s, In (PyStr s) lines /\ strip is_space s = l.
Proof.
  rewrite remove_new_lines_any. unfold kept_lines.
  rewrite filter_In, in_map_iff. split.
  - intros [[s [Hs Hin]] Hn]. split.
    + intros ->. discriminate.
    + exists s. split; [apply in_strings_of, Hin|exact Hs].
  - intros [Hn [s [Hin Hs]]]. split.
    + exists s. split; [exact Hs|apply in_strings_of, Hin].
    + destruct l; [contradiction|reflexivity].
Qed.

(** X2: [remove_new_lines] is idempotent, and its lines have no space at
    either end. *)
Theorem remove_new_lines_idempotent (lines : list pyval) :
  remove_new_lines (map PyStr (remove_new_lines lines)) = remove_new_lines lines /\
  Forall (ends_clear is_space) (remove_new_lines lines).
Proof.
  assert (Hends : Forall (ends_clear is_space) (remove_new_lines lines)).
  { apply Forall_forall. intros l Hl. rewrite remove_new_lines_any in Hl.
    unfold kept_lines in Hl. apply filter_In in Hl. destruct Hl as [Hl _].
    apply in_map_iff in Hl. destruct Hl as [s [<- _]]. apply strip_ends_clear. }
  split; [|exact Hends].
  rewrite remove_new_lines_kept.
  assert (Hne : Forall (fun l => nonempty l = true) (remove_new_lines lines)).
  { apply Forall_forall. intros l Hl. rewrite remove_new_lines_any in Hl.
    unfold kept_lines in Hl. apply filter_In in Hl. apply Hl. }
  revert Hends Hne. generalize (remove_new_lines lines) as out.
  induction out as [|l out IH]; intros Hends Hne; [reflexivity|].
  inversion Hends; inversion Hne; subst.
  unfold kept_lines in *. cbn [map filter].
  rewrite strip_fixed by assumption.
  replace (nonempty l) with true by (symmetry; assumption).
  rewrite IH by assumption. reflexivity.
Qed.

(** ** What [clean_text] removes and what it leaves *)

Lemma content_app (a b : str) : content (a ++ b) = content a ++ content b.
Proof. unfold content. apply filter_app. Qed.

Lemma content_blank (pre : str) : forallb is_blank pre = true -> content pre = [].
Proof.
  induction pre as [|c pre IH]; [reflexivity|].
  cbn [forallb]. intros H. apply andb_true_iff in H. destruct H as [Hc Hp].
  unfold content in *. cbn [filter]. rewrite Hc. exact (IH Hp).
Qed.

Lemma forallb_nl_blank (pre : str) :
  forallb is_nl pre = true -> forallb is_blank pre = true.
Proof.
  induction pre as [|c pre IH]; [reflexivity|].
  cbn [forallb]. intros H. apply andb_true_iff in H. destruct H as [Hc Hp].
  unfold is_nl in Hc. rewrite (IH Hp). unfold is_blank. rewrite Hc. reflexivity.
Qed.

(** What the first pattern matches is made of spaces and line breaks. *)
Lemma match_space_break_blank (s rest : str) :
  match_space_break s = Some rest ->
  exists pre, s = pre ++ rest /\ forallb is_blank pre = true.
Proof.
  destruct s as [|x s]; simpl; [discriminate|].
  destruct (x =? NL)%N eqn:Ex.
  - destruct (dropwhile_split is_nl s) as [pre [H Hpre]].
    unfold drop_nl. destruct (dropwhile is_nl s) as [|y r] eqn:E; simpl;
      [discriminate|].
    destruct (y =? SP)%N eqn:Ey; [|discriminate].
    intros [= <-]. exists (x :: pre ++ [y]). split.
    + rewrite H at 1. cbn [app]. rewrite <- app_assoc. reflexivity.
    + assert (Hx : is_blank x = true) by (unfold is_blank; rewrite Ex; reflexivity).
      assert (Hy : is_blank y = true)
        by (unfold is_blank; rewrite Ey; apply orb_true_r).
      cbn [forallb]. rewrite forallb_app, (forallb_nl_blank _ Hpre).
      cbn [forallb]. rewrite Hx, Hy. reflexivity.
  - destruct (x =? SP)%N eqn:Ex'; [|discriminate].
    destruct s as [|y r]; [discriminate|].
    destruct (y =? NL)%N eqn:Ey; [|discriminate].
    intros [= <-]. exists [x; y]. split; [reflexivity|].
    assert (Hx : is_blank x = true)
      by (unfold is_blank; rewrite Ex'; apply orb_true_r).
    assert (Hy : is_blank y = true) by (unfold is_blank; rewrite Ey; reflexivity).
    cbn [forallb]. rewrite Hx, Hy. reflexivity.
Qed.

Lemma match_breaks_blank (s rest : str) :
  match_breaks s = Some rest ->
  exists pre, s = pre ++ rest /\ forallb is_blank pre = true.
Proof.
  destruct s as [|a [|b r]]; simpl; try discriminate.
  destruct (a =? NL)%N eqn:Ea; [|discriminate].
  destruct (b =? NL)%N eqn:Eb; [|discriminate].
  intros [= <-]. destruct (dropwhile_split is_nl r) as [pre [H Hpre]].
  exists (a :: b :: pre). split.
  - cbn [app]. unfold drop_nl. rewrite <- H. reflexivity.
  - assert (Ha : is_blank a = true) by (unfold is_blank; rewrite Ea; reflexivity).
    assert (Hb : is_blank b = true) by (unfold is_blank; rewrite Eb; reflexivity).
    cbn [forallb]. rewrite (forallb_nl_blank _ Hpre), Ha, Hb. reflexivity.
Qed.

Lemma content_pass1_upto (n : nat) :
  forall s, length s <= n -> content (pass1 s) = content s.
Proof.
  induction n as [|n IH]; intros [|c s] Hn; simpl in Hn;
    try reflexivity; try lia.
  rewrite pass1_cons. destruct (match_space_break (c :: s)) as [rest|] eqn:E.
  - destruct (match_space_break_split _ _ E) as [c' [d [pre H]]].
    destruct (match_space_break_blank _ _ E) as [blank [Hs Hblank]].
    rewrite Hs, content_app, (content_blank _ Hblank). cbn [app].
    change (content (NL :: pass1 rest)) with (content (pass1 rest)).
    apply IH. injection H as _ H. rewrite H in Hn.
    cbn [length] in Hn. rewrite length_app in Hn. lia.
  - unfold content in *. cbn [filter]. rewrite (IH s ltac:(lia)). reflexivity.
Qed.

Lemma content_pass2_upto (n : nat) :
  forall s, length s <= n -> content (pass2 s) = content s.
Proof.
  induction n as [|n IH]; intros [|c s] Hn; simpl in Hn;
    try reflexivity; try lia.
  rewrite pass2_cons. destruct (match_breaks (c :: s)) as [rest|] eqn:E.
  - destruct (match_breaks_split _ _ E) as [c' [d [pre H]]].
    destruct (match_breaks_blank _ _ E) as [blank [Hs Hblank]].
    rewrite Hs, content_app, (content_blank _ Hblank). cbn [app].
    change (content (NL :: NL :: pass2 rest)) with (content (pass2 rest)).
    apply IH. injection H as _ H. rewrite H in Hn.
    cbn [length] in Hn. rewrite length_app in Hn. lia.
  - unfold content in *. cbn [filter]. rewrite (IH s ltac:(lia)). reflexivity.
Qed.

(** X3: [clean_text] removes nothing but spaces and line breaks: the other
    characters of a string are all kept, in their order, and the result is
    never longer than the string. *)
Theorem clean_text_keeps_content (s : str) :
  exists t,
    clean_text (PyStr s) = Ok (PyStr t) /\
    content t = content s /\
    length t <= length s.
Proof.
  exists (clean_str s). split; [reflexivity|]. unfold clean_str. split.
  - rewrite (content_pass2_upto _ _ (le_n _)).
    exact (content_pass1_upto _ _ (le_n _)).
  - pose proof (pass2_length_le (pass1 s)). pose proof (pass1_length_le s). lia.
Qed.

Lemma triple_break_cons (a b c : char) (t : str) :
  triple_break (a :: b :: c :: t) =
  (a =? NL)%N && (b =? NL)%N && (c =? NL)%N || triple_break (b :: c :: t).
Proof. reflexivity. Qed.

Lemma triple_break_tail (a : char) (t : str) :
  triple_break (a :: t) = false -> triple_break t = false.
Proof.
  destruct t as [|b [|c t]]; try reflexivity.
  rewrite triple_break_cons. intros H. apply orb_false_iff in H. apply H.
Qed.

(** A text that does not start with a line break stays free of three
    line breaks in a row when up to two are put before it. *)
Lemma triple_break_two_before (t : str) :
  match t with x :: _ => is_nl x = false | [] => True end ->
  triple_break t = false ->
  triple_break (NL :: NL :: t) = false.
Proof.
  destruct t as [|x t]; [reflexivity|]. intros Hx Ht. unfold is_nl in Hx.
  rewrite triple_break_cons, Hx, andb_false_r. cbn [orb].
  destruct t as [|y t]; [reflexivity|].
  rewrite triple_break_cons, Hx, andb_false_r. cbn [andb orb]. exact Ht.
Qed.

Lemma head_of_pass2 (s : str) :
  match s with x :: _ => is_nl x = false | [] => True end ->
  match pass2 s with x :: _ => is_nl x = false | [] => True end.
Proof.
  intros H. pose proof (pass2_head s) as Hh.
  destruct (pass2 s) as [|x p], s as [|y q]; try discriminate; [exact I|].
  injection Hh as ->. exact H.
Qed.

Lemma pass2_no_triple_upto (n : nat) :
  forall s, length s <= n -> triple_break (pass2 s) = false.
Proof.
  induction n as [|n IH]; intros [|c s] Hn; simpl in Hn;
    try reflexivity; try lia.
  rewrite pass2_cons. destruct (match_breaks (c :: s)) as [rest|] eqn:E.
  - destruct s as [|b r]; simpl in E; [discriminate|].
    destruct ((c =? NL)%N && (b =? NL)%N); [|discriminate].
    injection E as <-. apply triple_break_two_before.
    + apply head_of_pass2, drop_nl_head.
    + apply IH. pose proof (dropwhile_length is_nl r). unfold drop_nl.
      simpl in Hn. lia.
  - pose proof (IH s ltac:(lia)) as Hs.
    pose proof (pass2_head s) as Hh.
    destruct (pass2 s) as [|x [|y p]] eqn:Ep; try reflexivity.
    rewrite triple_break_cons, Hs, orb_false_r.
    destruct s as [|b r]; [discriminate|]. injection Hh as ->.
    cbn [match_breaks] in E.
    destruct (c =? NL)%N; [|reflexivity].
    destruct (b =? NL)%N; [discriminate|reflexivity].
Qed.

(** X4: the result of [clean_text] on a string never holds three line
    breaks in a row. *)
Theorem clean_text_no_triple_break (s : str) :
  exists t, clean_text (PyStr s) = Ok (PyStr t) /\ triple_break t = false.
Proof.
  exists (clean_str s). split; [reflexivity|].
  unfold clean_str. exact (pass2_no_triple_upto _ _ (le_n _)).
Qed.

Lemma pass2_fixed_upto (n : nat) :
  forall s, length s <= n -> triple_break s = false -> pass2 s = s.
Proof.
  induction n as [|n IH]; intros [|c s] Hn H; simpl in Hn;
    try reflexivity; try lia.
  rewrite pass2_cons. destruct (match_breaks (c :: s)) as [rest|] eqn:E.
  - destruct s as [|b r]; simpl in E; [discriminate|].
    destruct (c =? NL)%N eqn:Ec; [|discriminate].
    destruct (b =? NL)%N eqn:Eb; [|discriminate].
    apply N.eqb_eq in Ec, Eb. subst c b. injection E as <-.
    assert (Hr : drop_nl r = r).
    { apply drop_nl_id. destruct r as [|x r]; [exact I|].
      rewrite triple_break_cons in H. apply orb_false_iff in H.
      destruct H as [H _]. exact H. }
    rewrite Hr. f_equal. f_equal. apply IH; [simpl in Hn; lia|].
    exact (triple_break_tail _ _ (triple_break_tail _ _ H)).
  - f_equal. apply IH; [lia|]. exact (triple_break_tail _ _ H).
Qed.

Lemma pass2_shrinks_upto (n : nat) :
  forall s, length s <= n ->
            triple_break s = true -> length (pass2 s) < length s.
Proof.
  induction n as [|n IH]; intros [|c s] Hn H; simpl in Hn;
    try discriminate; try lia.
  rewrite pass2_cons. destruct (match_breaks (c :: s)) as [rest|] eqn:E.
  - destruct s as [|b r]; simpl in E; [discriminate|].
    destruct (c =? NL)%N eqn:Ec; [|discriminate].
    destruct (b =? NL)%N eqn:Eb; [|discriminate].
    injection E as <-. simpl in Hn.
    destruct r as [|x r]; [discriminate|].
    destruct (x =? NL)%N eqn:Ex.
    + assert (Hd : drop_nl (x :: r) = drop_nl r).
      { unfold drop_nl. cbn [dropwhile]. unfold is_nl at 1. rewrite Ex.
        reflexivity. }
      rewrite Hd. pose proof (pass2_length_le (drop_nl r)).
      pose proof (dropwhile_length is_nl r) as Hr. fold (drop_nl r) in Hr.
      cbn [length]. lia.
    + assert (Hd : drop_nl (x :: r) = x :: r).
      { apply drop_nl_id. unfold is_nl. exact Ex. }
      rewrite Hd.
      rewrite triple_break_cons, Ex, andb_false_r in H. cbn [orb] in H.
      assert (Hr : triple_break (x :: r) = true).
      { destruct r as [|y r]; [discriminate|].
        rewrite triple_break_cons, Ex, andb_false_r in H. exact H. }
      pose proof (IH (x :: r) ltac:(simpl in *; lia) Hr). cbn [length] in *. lia.
  - assert (Hs : triple_break s = true).
    { destruct s as [|b [|x r]]; try discriminate.
      rewrite triple_break_cons in H. apply orb_true_iff in H.
      destruct H as [H|H]; [|exact H]. exfalso.
      apply andb_true_iff in H. destruct H as [H _].
      cbn [match_breaks] in E. rewrite H in E. discriminate. }
    pose proof (IH s ltac:(lia) Hs). simpl. lia.
Qed.

Lemma pass2_shrinks (s : str) :
  triple_break s = true -> length (pass2 s) < length s.
Proof. exact (pass2_shrinks_upto (length s) s (le_n _)). Qed.

(** X5: the strings [clean_text] leaves as they are, are those without a
    space next to a line break and without three line breaks in a row. *)
Theorem clean_text_fixed_points (s : str) :
  clean_text (PyStr s) = Ok (PyStr s) <->
  space_by_break s = false /\ triple_break s = false.
Proof.
  rewrite clean_text_str. unfold clean_str. split.
  - intros H. injection H as H.
    pose proof (pass2_length_le (pass1 s)) as H2.
    pose proof (pass1_length_le s) as H1.
    assert (Hsb : space_by_break s = false).
    { destruct (space_by_break s) eqn:E; [exfalso|reflexivity].
      pose proof (pass1_shrinks _ E). rewrite H in H2. lia. }
    split; [exact Hsb|]. rewrite (pass1_clean _ Hsb) in H.
    destruct (triple_break s) eqn:E; [exfalso|reflexivity].
    pose proof (pass2_shrinks _ E). rewrite H in *. lia.
  - intros [Hsb Ht]. rewrite (pass1_clean _ Hsb).
    rewrite (pass2_fixed_upto _ _ (le_n _) Ht). reflexivity.
Qed.

(** ** Further properties of [load_from_url] *)

(** X6: when the extraction makes no directory (an archive without
    members), [load_from_url] removes the archive file and then fails in
    [os.rmdir] with [FileNotFoundError]; nothing is printed and no list is
    returned. *)
Theorem empty_extraction_fails
        (requests_get : str -> result bytes)
        (zip_extractall : bytes -> option entries -> result unit * option entries)
        (convert_to_utf8 : bytes -> result str)
        (url : str) (w : world) (content : bytes) :
  requests_get url = Ok content ->
  zip_extractall content (extract_dir (w_disk w)) = (Ok tt, None) ->
  load_from_url requests_get zip_extractall convert_to_utf8 url w =
  (Raise no_such_file, mk_world fresh (w_stdout w)) /\
  exn_type no_such_file = FileNotFoundError.
Proof.
  intros Hget Hzip. split; [|reflexivity]. unfold load_from_url.
  unfold io_bind at 1. unfold lift at 1. rewrite Hget.
  unfold io_bind at 1. unfold write_zip at 1.
  unfold io_bind at 1. unfold extract_zip at 1.
  cbn [w_disk zip_file extract_dir w_stdout]. rewrite Hzip.
  unfold io_bind at 1. unfold get_disk at 1. cbn [w_disk].
  unfold io_bind at 1. rewrite visit_directories_add.
  cbn [w_disk w_stdout walk_disk extract_dir files_of flat_map app].
  rewrite app_nil_r. reflexivity.
Qed.

Lemma empty_extraction_fails_witness :
  load_from_url (serve []) unpack_nothing convert_to_utf8_spec some_url
                (mk_world fresh []) =
  (Raise no_such_file, mk_world fresh []) /\
  exn_type no_such_file = FileNotFoundError.
Proof.
  apply (empty_extraction_fails (serve []) unpack_nothing convert_to_utf8_spec
                                some_url (mk_world fresh []) []);
    reflexivity.
Defined.

Lemma docs_of_count (convert_to_utf8 : bytes -> result str) (d : disk)
      (files : list (list str * str)) :
  length (flat_map (docs_of convert_to_utf8 d) files) <=
  length (filter (fun pf => is_txt (snd pf)) files).
Proof.
  induction files as [|[path file] files IH]; [apply le_n|].
  cbn [flat_map filter snd]. rewrite length_app. unfold docs_of at 1.
  cbn [fst snd]. destruct (is_txt file); [|simpl; exact IH].
  destruct (document_of convert_to_utf8 d path file) as [[doc|]|e];
    simpl; lia.
Qed.

Lemma docs_of_filename (convert_to_utf8 : bytes -> result str) (d : disk)
      (path : list str) (file : str) (doc : legal_document) :
  In doc (docs_of convert_to_utf8 d (path, file)) ->
  is_txt file = true /\ Filename doc = Some file.
Proof.
  unfold docs_of. cbn [fst snd]. destruct (is_txt file); [|contradiction].
  unfold document_of.
  destruct (open_read d (path ++ [file])) as [text|e]; cbn [bind];
    [|contradiction].
  unfold file_record.
  destruct (kept_lines (splitlines text)) as [|first rest]; [contradiction|].
  destruct (convert_to_utf8 (latin1_bytes (strip is_whitespace first)));
    cbn [bind]; [|contradiction].
  destruct (convert_to_utf8 (latin1_bytes (join [NL] rest)));
    cbn [bind]; [|contradiction].
  intros [<-|[]]. split; reflexivity.
Qed.

Lemma docs_of_subseq (convert_to_utf8 : bytes -> result str) (d : disk)
      (files : list (list str * str)) :
  exists used,
    subseq used files /\
    Forall2 (fun doc pf =>
               endswith (snd pf) (lit ".txt") = true /\
               Filename doc = Some (snd pf) /\
               fst (read_document convert_to_utf8 (fst pf) (snd pf) []
                                  (mk_world d [])) = Ok [doc])
            (flat_map (docs_of convert_to_utf8 d) files) used.
Proof.
  induction files as [|[path file] files [used [Hsub Hall]]].
  - exists []. split; constructor.
  - cbn [flat_map].
    destruct (docs_of convert_to_utf8 d (path, file)) as [|doc more] eqn:E.
    + exists used. split; [apply subseq_skip, Hsub|exact Hall].
    + assert (Hin : In doc (docs_of convert_to_utf8 d (path, file)))
        by (rewrite E; left; reflexivity).
      destruct (docs_of_filename _ _ _ _ _ Hin) as [Htxt Hname].
      unfold docs_of in E. cbn [fst snd] in E. rewrite Htxt in E.
      destruct (document_of convert_to_utf8 d path file) as [[doc'|]|e] eqn:Hd;
        try discriminate.
      injection E as -> <-.
      exists ((path, file) :: used). split; [apply subseq_take, Hsub|].
      cbn [app]. constructor; [|exact Hall]. cbn [fst snd].
      repeat split; try assumption.
      rewrite read_document_record. cbn [w_disk]. rewrite Hd. reflexivity.
Qed.

(** X7: the records [load_from_url] returns match, one for one and in the
    order of the walk, files of the directory the archive was extracted to
    that are taken at different places of the walk: each of these files has
    a name ending in [.txt], which is the [Filename] of its record, and its
    record is what the body of the [try] statement makes of it. *)
Theorem records_come_from_txt_files
        (requests_get : str -> result bytes)
        (zip_extractall : bytes -> option entries -> result unit * option entries)
        (convert_to_utf8 : bytes -> result str)
        (url : str) (w w' : world) (docs : list legal_document) :
  load_from_url requests_get zip_extractall convert_to_utf8 url w = (Ok docs, w') ->
  exists content es used,
    requests_get url = Ok content /\
    zip_extractall content (extract_dir (w_disk w)) = (Ok tt, Some es) /\
    subseq used (files_of (walk [extract_directory] (Dir es))) /\
    Forall2 (fun doc pf =>
               endswith (snd pf) (lit ".txt") = true /\
               Filename doc = Some (snd pf) /\
               fst (read_document convert_to_utf8 (fst pf) (snd pf) []
                                  (mk_world (mk_disk (Some content) (Some es)) []))
               = Ok [doc])
            docs used.
Proof.
  intros H.
  destruct (load_from_url_returns _ _ _ _ _ _ _ H)
    as [content [es [Hget [Hzip ->]]]].
  destruct (docs_of_subseq convert_to_utf8 (mk_disk (Some content) (Some es))
                           (files_of (walk [extract_directory] (Dir es))))
    as [used [Hsub Hall]].
  exists content, es, used. repeat split; assumption.
Qed.

Lemma records_come_from_txt_files_witness :
  exists content es used,
    serve [] some_url = Ok content /\
    unpack_to mixed_archive content (extract_dir (w_disk (mk_world fresh []))) =
    (Ok tt, Some es) /\
    subseq used (files_of (walk [extract_directory] (Dir es))) /\
    Forall2 (fun doc pf =>
               endswith (snd pf) (lit ".txt") = true /\
               Filename doc = Some (snd pf) /\
               fst (read_document convert_ascii_only (fst pf) (snd pf) []
                                  (mk_world (mk_disk (Some content) (Some es)) []))
               = Ok [doc])
            [mk_doc (lit "A") (Some (lit "a.txt")) (lit "first");
             mk_doc (lit "C") (Some (lit "c.txt")) (lit "last")]
            used.
Proof.
  apply (records_come_from_txt_files
           (serve []) (unpack_to mixed_archive) convert_ascii_only some_url
           (mk_world fresh [])
           (mk_world fresh
              [lit "**Skipping file legal_documents/sub/bad.txt due to encoding issues.**\n\n"])).
  vm_compute. reflexivity.
Defined.

Lemma latin1_decode_bytes (s : str) :
  latin1 s -> decode_latin1 (latin1_bytes s) = s.
Proof.
  induction 1 as [|c s Hc Hs IH]; [reflexivity|].
  cbn [latin1_bytes flat_map]. fold (latin1_bytes s).
  destruct (Byte.of_N c) as [b|] eqn:E.
  - cbn [app decode_latin1 map]. fold (decode_latin1 (latin1_bytes s)).
    rewrite IH, (Byte.to_of_N c E). reflexivity.
  - apply Byte.of_N_None_iff in E. lia.
Qed.

(** X8: on the text of a file read by the loader both calls of
    [encode('latin-1')] succeed, and the bytes they hand to
    [convert_to_utf8] decode back to the title and to the body. *)
Theorem archive_text_encodes (d : disk) (p : list str) (text first : str)
        (rest : list str) :
  open_read d p = Ok text ->
  remove_new_lines (map PyStr (splitlines text)) = first :: rest ->
  (exists b, encode_latin1 (strip is_whitespace first) = Ok b /\
             decode_latin1 b = strip is_whitespace first) /\
  (exists b, encode_latin1 (join [NL] rest) = Ok b /\
             decode_latin1 b = join [NL] rest).
Proof.
  intros Hread Hkept. rewrite remove_new_lines_kept in Hkept.
  apply latin1_open_read in Hread.
  assert (Hk : Forall latin1 (kept_lines (splitlines text))).
  { apply latin1_kept_lines, latin1_splitlines_from; [constructor|exact Hread]. }
  rewrite Hkept in Hk. inversion Hk as [|? ? Hfirst Hrest]; subst.
  pose proof (latin1_strip is_whitespace _ Hfirst) as Ht.
  pose proof (latin1_join _ Hrest) as Hb.
  split.
  - exists (latin1_bytes (strip is_whitespace first)).
    split; [apply latin1_encode, Ht|apply latin1_decode_bytes, Ht].
  - exists (latin1_bytes (join [NL] rest)).
    split; [apply latin1_encode, Hb|apply latin1_decode_bytes, Hb].
Qed.

Lemma archive_text_encodes_witness :
  (exists b, encode_latin1 (strip is_whitespace (lit "Title Line")) = Ok b /\
             decode_latin1 b = strip is_whitespace (lit "Title Line")) /\
  (exists b, encode_latin1 (join [NL] [lit "Body line 1"; lit "Body line 2"]) = Ok b /\
             decode_latin1 b = join [NL] [lit "Body line 1"; lit "Body line 2"]).
Proof.
  apply (archive_text_encodes
           (mk_disk None (Some doc1_archive))
           [extract_directory; lit "doc1.txt"]
           (lit "Title Line\n\nBody line 1\nBody line 2\n")
           (lit "Title Line") [lit "Body line 1"; lit "Body line 2"]);
    reflexivity.
Defined.

(** X9: the last lines of [load_from_url] (removing the archive file,
    emptying the extraction directory from the bottom up, removing it)
    succeed on every extracted tree with one entry per name, however deep,
    and leave neither artifact; they print nothing. *)
Theorem cleanup_removes_everything (content : bytes) (es : entries)
        (out : list str) :
  well_formed (Dir es) = true ->
  (_ <~ on_disk remove_zip ;;
   d <~ get_disk ;;
   _ <~ for_each (walk_disk true d) remove_directory_content ;;
   on_disk rmdir_extract_dir)
    (mk_world (mk_disk (Some content) (Some es)) out)
  = (Ok tt, mk_world fresh out).
Proof.
  intros Hwf.
  unfold io_bind at 1. unfold on_disk at 1, remove_zip.
  cbn [w_disk zip_file extract_dir w_stdout].
  unfold io_bind at 1. unfold get_disk at 1. cbn [w_disk].
  unfold io_bind at 1. rewrite (remove_tree_succeeds _ _ _ Hwf).
  reflexivity.
Qed.

Lemma cleanup_removes_everything_witness :
  (_ <~ on_disk remove_zip ;;
   d <~ get_disk ;;
   _ <~ for_each (walk_disk true d) remove_directory_content ;;
   on_disk rmdir_extract_dir)
    (mk_world (mk_disk (Some []) (Some mixed_archive)) [])
  = (Ok tt, mk_world fresh []).
Proof.
  apply (cleanup_removes_everything [] mixed_archive []). reflexivity.
Defined.

(** ** Further properties of [load_from_csv] *)

Lemma pair_up_shape (str_title : str -> str) (names : list cell) :
  forall texts acc docs,
    pair_up str_title names texts acc = Ok docs ->
    exists new,
      docs = acc ++ new /\
      map Text new = firstn (length new) texts /\
      length new = Nat.min (length names) (length texts) /\
      Forall (fun doc => Filename doc = None) new.
Proof.
  induction names as [|n names IH]; intros texts acc docs H; cbn [pair_up] in H.
  - injection H as <-. exists []. rewrite app_nil_r. repeat split. constructor.
  - destruct texts as [|t texts].
    + injection H as <-. exists []. rewrite app_nil_r. repeat split. constructor.
    + destruct (cell_title str_title n) as [title|e]; cbn [bind] in H;
        [|discriminate].
      destruct (IH _ _ _ H) as [new [Hdocs [Htexts [Hlen Hnone]]]].
      exists (mk_doc title None t :: new). repeat split.
      * rewrite Hdocs, <- app_assoc. reflexivity.
      * cbn [map Text length firstn]. rewrite Htexts. reflexivity.
      * cbn [length]. rewrite Hlen. reflexivity.
      * constructor; [reflexivity|exact Hnone].
Qed.

(** X10: the texts of the records [load_from_csv] returns are the first
    kept cleaned texts of the column, in the order of the rows; there are as
    many records as labels or kept texts, whichever are fewer, and none has
    a [Filename]. *)
Theorem tabular_records_shape (read_csv : str -> result DataFrame)
        (str_title : str -> str) (file_path : str) (df : DataFrame)
        (text : list cell) (docs : list legal_document) :
  read_csv file_path = Ok df ->
  df_column (lit "Text") (df_columns df) = Some text ->
  load_from_csv read_csv str_title file_path = Ok docs ->
  map Text docs = firstn (length docs) (survivors text) /\
  length docs = Nat.min (length (df_index df)) (length (survivors text)) /\
  Forall (fun doc => Filename doc = None) docs.
Proof.
  intros Hread Hcol H.
  rewrite (load_from_csv_pairs _ _ _ _ _ Hread Hcol) in H.
  destruct (pair_up_shape _ _ _ _ _ H) as [new [-> Hnew]]. exact Hnew.
Qed.

Lemma tabular_records_shape_witness :
  map Text [mk_doc (lit "Alpha") None (lit "World")] =
  firstn (length [mk_doc (lit "Alpha") None (lit "World")])
         (survivors [NaN; CellStr (lit "World")]) /\
  length [mk_doc (lit "Alpha") None (lit "World")] =
  Nat.min (length (df_index shifted_frame))
          (length (survivors [NaN; CellStr (lit "World")])) /\
  Forall (fun doc => Filename doc = None)
         [mk_doc (lit "Alpha") None (lit "World")].
Proof.
  apply (tabular_records_shape (csv_holding shifted_frame) ascii_title
                               some_path shifted_frame);
    reflexivity.
Defined.

(** X11: with a column [Text], [load_from_csv] returns the empty list
    exactly when the frame has no row label or no cleaned text is kept; in
    the second case it does so whatever the labels are, strings or not. *)
Theorem tabular_empty_result (read_csv : str -> result DataFrame)
        (str_title : str -> str) (file_path : str) (df : DataFrame)
        (text : list cell) :
  read_csv file_path = Ok df ->
  df_column (lit "Text") (df_columns df) = Some text ->
  (load_from_csv read_csv str_title file_path = Ok [] <->
   df_index df = [] \/ survivors text = []).
Proof.
  intros Hread Hcol.
  rewrite (load_from_csv_pairs _ _ _ _ _ Hread Hcol). split.
  - intros H. destruct (pair_up_shape _ _ _ _ _ H) as [new [Hnew [_ [Hlen _]]]].
    cbn [app] in Hnew. subst new. cbn [length] in Hlen.
    destruct (df_index df) as [|n names]; [left; reflexivity|].
    destruct (survivors text) as [|t texts]; [right; reflexivity|].
    discriminate.
  - intros [H|H]; rewrite H; [reflexivity|].
    destruct (df_index df); reflexivity.
Qed.

Lemma tabular_empty_result_witness :
  load_from_csv (csv_holding (mk_frame [CellInt 0; CellInt 1]
                                       [(lit "Text", [NaN; CellInt 7])]))
                ascii_title some_path = Ok [] <->
  df_index (mk_frame [CellInt 0; CellInt 1] [(lit "Text", [NaN; CellInt 7])]) = [] \/
  survivors [NaN; CellInt 7] = [].
Proof.
  apply (tabular_empty_result
           (csv_holding (mk_frame [CellInt 0; CellInt 1]
                                  [(lit "Text", [NaN; CellInt 7])]))
           ascii_title some_path
           (mk_frame [CellInt 0; CellInt 1] [(lit "Text", [NaN; CellInt 7])])
           [NaN; CellInt 7]);
    reflexivity.
Defined.

Lemma survivors_all_kept (text : list cell) :
  Forall (fun c => cleaned c <> []) text -> survivors text = map cleaned text.
Proof.
  unfold survivors. induction 1 as [|c text Hc Ht IH]; [reflexivity|].
  cbn [map filter]. rewrite IH.
  destruct (cleaned c); [contradiction|reflexivity].
Qed.

Lemma combine_map_r {A B C} (f : B -> C) (a : list A) (b : list B) :
  combine a (map f b) = map (fun p => (fst p, f (snd p))) (combine a b).
Proof.
  revert b. induction a as [|x a IH]; intros [|y b]; try reflexivity.
  cbn [map combine fst snd]. rewrite IH. reflexivity.
Qed.

(** X12: when every label is a string and every cell of the column cleans
    to a text that is not empty, the records are aligned with the rows: the
    k-th record holds the title-cased label and the cleaned text of the
    k-th row. *)
Theorem tabular_rows_aligned (read_csv : str -> result DataFrame)
        (str_title : str -> str) (file_path : str) (df : DataFrame)
        (text : list cell) (names : list str) :
  read_csv file_path = Ok df ->
  df_column (lit "Text") (df_columns df) = Some text ->
  df_index df = map CellStr names ->
  Forall (fun c => cleaned c <> []) text ->
  load_from_csv read_csv str_title file_path =
  Ok (map (fun row => mk_doc (str_title (fst row)) None (cleaned (snd row)))
          (combine names text)).
Proof.
  intros Hread Hcol Hidx Hall.
  rewrite (load_from_csv_pairs _ _ _ _ _ Hread Hcol), Hidx, pair_up_labels.
  rewrite (survivors_all_kept _ Hall), combine_map_r, map_map. reflexivity.
Qed.

Lemma tabular_rows_aligned_witness :
  load_from_csv
    (csv_holding (mk_frame [CellStr (lit "alpha"); CellStr (lit "beta")]
                           [(lit "Text", [CellStr (lit "Hello \n\n\nthere");
                                          CellStr (lit "World")])]))
    ascii_title some_path =
  Ok (map (fun row => mk_doc (ascii_title (fst row)) None (cleaned (snd row)))
          (combine [lit "alpha"; lit "beta"]
                   [CellStr (lit "Hello \n\n\nthere"); CellStr (lit "World")])).
Proof.
  apply (tabular_rows_aligned
           (csv_holding (mk_frame [CellStr (lit "alpha"); CellStr (lit "beta")]
                                  [(lit "Text", [CellStr (lit "Hello \n\n\nthere");
                                                 CellStr (lit "World")])]))
           ascii_title some_path
           (mk_frame [CellStr (lit "alpha"); CellStr (lit "beta")]
                     [(lit "Text", [CellStr (lit "Hello \n\n\nthere");
                                    CellStr (lit "World")])])).
  - reflexivity.
  - reflexivity.
  - reflexivity.
  - repeat constructor; vm_compute; discriminate.
Defined.

(** X13: every [Text] that [load_from_csv] returns is the result of
    [clean_text] on a string of the column (a cell that is a number, a
    truth value or missing gives none); it holds no three line breaks in a
    row and no character other than spaces and line breaks is lost from the
    string. *)
Theorem tabular_texts_are_cleaned (read_csv : str -> result DataFrame)
        (str_title : str -> str) (file_path : str)
        (docs : list legal_document) (doc : legal_document) :
  load_from_csv read_csv str_title file_path = Ok docs ->
  In doc docs ->
  exists df text s,
    read_csv file_path = Ok df /\
    df_column (lit "Text") (df_columns df) = Some text /\
    In (CellStr s) text /\
    clean_text (PyStr s) = Ok (PyStr (Text doc)) /\
    triple_break (Text doc) = false /\
    content (Text doc) = content s.
Proof.
  intros H Hin.
  destruct (load_from_csv_returns _ _ _ _ H) as [df [text [Hread [Hcol Hpair]]]].
  destruct (pair_up_returns _ _ _ _ _ Hpair) as [new [-> Hnew]].
  cbn [app] in Hin. apply In_nth_error in Hin. destruct Hin as [k Hk].
  destruct (Hnew k doc Hk) as [label [_ [_ Ht]]]. apply nth_error_In in Ht.
  unfold survivors in Ht. apply filter_In in Ht. destruct Ht as [Ht Hne].
  apply in_map_iff in Ht. destruct Ht as [c [Hc Hcin]].
  destruct c as [s| | |]; cbn [cleaned] in Hc;
    try (rewrite <- Hc in Hne; discriminate).
  exists df, text, s. rewrite <- Hc. repeat split; try assumption.
  - unfold clean_str. exact (pass2_no_triple_upto _ _ (le_n _)).
  - unfold clean_str. rewrite (content_pass2_upto _ _ (le_n _)).
    exact (content_pass1_upto _ _ (le_n _)).
Qed.

Lemma tabular_texts_are_cleaned_witness :
  exists df text s,
    csv_holding alpha_beta_frame some_path = Ok df /\
    df_column (lit "Text") (df_columns df) = Some text /\
    In (CellStr s) text /\
    clean_text (PyStr s) =
    Ok (PyStr (Text (mk_doc (lit "Alpha") None (lit "Hello\n\nWorld")))) /\
    triple_break (Text (mk_doc (lit "Alpha") None (lit "Hello\n\nWorld"))) = false /\
    content (Text (mk_doc (lit "Alpha") None (lit "Hello\n\nWorld"))) = content s.
Proof.
  apply (tabular_texts_are_cleaned
           (csv_holding alpha_beta_frame) ascii_title some_path
           [mk_doc (lit "Alpha") None (lit "Hello\n\nWorld")]).
  - reflexivity.
  - left. reflexivity.
Defined.

(** ** The body of an archive record and [clean_text] *)

Lemma splitlines_from_no_break (s : str) :
  forall cur after_cr,
    Forall (fun c => is_linebreak c = false) cur ->
    Forall (Forall (fun c => is_linebreak c = false))
           (splitlines_from cur after_cr s).
Proof.
  induction s as [|c s IH]; intros cur after_cr Hcur; cbn [splitlines_from].
  - destruct cur; [constructor|].
    constructor; [apply Forall_rev; exact Hcur|constructor].
  - destruct (after_cr && (c =? NL)%N); [apply IH; exact Hcur|].
    destruct (is_linebreak c) eqn:E.
    + constructor; [apply Forall_rev; exact Hcur|]. apply IH. constructor.
    + apply IH. constructor; assumption.
Qed.

Lemma Forall_dropwhile {A} (P : A -> Prop) (p : A -> bool) (l : list A) :
  Forall P l -> Forall P (dropwhile p l).
Proof.
  induction 1 as [|x l Hx Hl IH]; cbn [dropwhile]; [constructor|].
  destruct (p x); [exact IH|constructor; assumption].
Qed.

Lemma Forall_strip (P : char -> Prop) (p : char -> bool) (s : str) :
  Forall P s -> Forall P (strip p s).
Proof.
  intros H. unfold strip.
  apply Forall_rev, Forall_dropwhile, Forall_rev, Forall_dropwhile, H.
Qed.

Lemma linebreak_nl (c : char) : is_linebreak c = false -> is_nl c = false.
Proof.
  unfold is_nl. destruct (c =? NL)%N eqn:E; [|reflexivity].
  apply N.eqb_eq in E. subst c. discriminate.
Qed.

Lemma kept_lines_tidy (text : str) :
  Forall tidy_line (kept_lines (splitlines text)).
Proof.
  apply Forall_forall. intros l Hl. unfold kept_lines in Hl.
  apply filter_In in Hl. destruct Hl as [Hl Hne].
  apply in_map_iff in Hl. destruct Hl as [line [<- Hline]].
  pose proof (splitlines_from_no_break text [] false (Forall_nil _)) as Hall.
  rewrite Forall_forall in Hall. specialize (Hall line Hline).
  repeat split.
  - intros H. rewrite H in Hne. discriminate.
  - apply Forall_strip. revert Hall. apply Forall_impl. exact linebreak_nl.
  - apply strip_ends_clear.
  - apply strip_ends_clear.
Qed.

Lemma space_by_break_skip (a b : char) (t : str) :
  is_nl a = false -> is_nl b = false ->
  space_by_break (a :: b :: t) = space_by_break (b :: t).
Proof.
  unfold is_nl. intros Ha Hb. rewrite space_by_break_cons.
  unfold adjacent. rewrite Ha, Hb, andb_false_r. reflexivity.
Qed.

Lemma triple_break_skip (a : char) (t : str) :
  is_nl a = false -> triple_break (a :: t) = triple_break t.
Proof.
  unfold is_nl. intros Ha. destruct t as [|b [|c t]]; try reflexivity.
  rewrite triple_break_cons, Ha. reflexivity.
Qed.

Lemma no_break_clean (x : str) :
  Forall (fun c => is_nl c = false) x ->
  space_by_break x = false /\ triple_break x = false.
Proof.
  induction 1 as [|a x Ha Hx [IH1 IH2]]; [split; reflexivity|]. split.
  - destruct x as [|b x]; [reflexivity|]. inversion Hx; subst.
    rewrite space_by_break_skip by assumption. exact IH1.
  - rewrite triple_break_skip by assumption. exact IH2.
Qed.

(** A line put before a line break and a text that starts neither with a
    space nor with a line break. *)
Lemma line_before_break (pre : str) (z : char) (y : str) :
  Forall (fun c => is_nl c = false) pre ->
  is_nl z = false -> is_space z = false ->
  match y with h :: _ => is_nl h = false /\ is_space h = false | [] => True end ->
  space_by_break y = false -> triple_break y = false ->
  space_by_break (pre ++ z :: NL :: y) = false /\
  triple_break (pre ++ z :: NL :: y) = false.
Proof.
  intros Hpre Hz Hsp Hy Hs Ht.
  induction Hpre as [|a pre Ha Hpre [IH1 IH2]]; cbn [app].
  - split.
    + rewrite space_by_break_cons. unfold adjacent. unfold is_nl in Hz.
      unfold is_space in Hsp. rewrite Hz, Hsp. cbn [andb orb].
      destruct y as [|h t]; [reflexivity|]. destruct Hy as [_ Hh].
      rewrite space_by_break_cons, Hs, orb_false_r. unfold adjacent.
      unfold is_space in Hh. rewrite Hh. reflexivity.
    + rewrite (triple_break_skip z _ Hz).
      destruct y as [|h t]; [reflexivity|]. destruct Hy as [Hh _].
      destruct t as [|g t]; [reflexivity|].
      rewrite triple_break_cons. unfold is_nl in Hh. rewrite Hh.
      rewrite andb_false_r. exact Ht.
  - split.
    + destruct pre as [|b pre]; cbn [app] in *.
      * rewrite space_by_break_skip by assumption. exact IH1.
      * inversion Hpre; subst.
        rewrite space_by_break_skip by assumption. exact IH1.
    + rewrite triple_break_skip by assumption. exact IH2.
Qed.

Lemma tidy_line_shape (l : str) :
  tidy_line l ->
  exists pre z,
    l = pre ++ [z] /\ Forall (fun c => is_nl c = false) pre /\
    is_nl z = false /\ is_space z = false /\
    match l with h :: _ => is_nl h = false /\ is_space h = false | [] => True end.
Proof.
  intros [Hne [Hnl [Hhd Hlast]]].
  destruct (rev l) as [|z r] eqn:E.
  - apply (f_equal (@rev char)) in E. rewrite rev_involutive in E.
    contradiction.
  - apply (f_equal (@rev char)) in E. rewrite rev_involutive in E.
    cbn [rev] in E. exists (rev r), z. rewrite E in Hnl.
    apply Forall_app in Hnl. destruct Hnl as [Hr Hz].
    inversion Hz; subst. repeat split; try assumption.
    destruct (rev r ++ [z]) as [|h t] eqn:El; [exact I|].
    split; [|exact Hhd].
    assert (Hin : Forall (fun c => is_nl c = false) (h :: t)).
    { rewrite <- El. apply Forall_app. split; assumption. }
    inversion Hin; assumption.
Qed.

Lemma join_tidy (ls : list str) :
  Forall tidy_line ls ->
  space_by_break (join [NL] ls) = false /\
  triple_break (join [NL] ls) = false /\
  match join [NL] ls with
  | h :: _ => is_nl h = false /\ is_space h = false
  | [] => True
  end.
Proof.
  induction 1 as [|l ls Hl Hls [IH1 [IH2 IH3]]]; [repeat split|].
  destruct (tidy_line_shape l Hl) as [pre [z [El [Hpre [Hz [Hsp Hhd]]]]]].
  cbn [join]. destruct ls as [|l' ls].
  - destruct Hl as [_ [Hnl _]]. destruct (no_break_clean l Hnl) as [H1 H2].
    repeat split; assumption.
  - replace (l ++ [NL] ++ join [NL] (l' :: ls))
      with (pre ++ z :: NL :: join [NL] (l' :: ls))
      by (rewrite El, <- app_assoc; reflexivity).
    destruct (line_before_break pre z _ Hpre Hz Hsp IH3 IH1 IH2) as [H1 H2].
    split; [exact H1|]. split; [exact H2|].
    destruct pre as [|a pre]; cbn [app].
    + split; assumption.
    + rewrite El in Hhd. exact Hhd.
Qed.

(** X14: the lines [remove_new_lines] keeps of a file, joined by line
    breaks as the loader does for the body, form a text that [clean_text]
    leaves as it is. *)
Theorem archive_body_is_clean (text first : str) (rest : list str) :
  remove_new_lines (map PyStr (splitlines text)) = first :: rest ->
  clean_text (PyStr (join [NL] rest)) = Ok (PyStr (join [NL] rest)).
Proof.
  intros H. rewrite remove_new_lines_kept in H.
  pose proof (kept_lines_tidy text) as Hk. rewrite H in Hk.
  inversion Hk as [|? ? _ Hrest]; subst.
  destruct (join_tidy rest Hrest) as [Hs [Ht _]].
  rewrite clean_text_str. unfold clean_str.
  rewrite (pass1_clean _ Hs), (pass2_fixed_upto _ _ (le_n _) Ht). reflexivity.
Qed.

Lemma archive_body_is_clean_witness :
  clean_text (PyStr (join [NL] [lit "Body  line 1"; lit "Body line 2"])) =
  Ok (PyStr (join [NL] [lit "Body  line 1"; lit "Body line 2"])).
Proof.
  apply (archive_body_is_clean
           (lit " Title \n \n\n  Body  line 1 \n\nBody line 2") (lit "Title")).
  reflexivity.
Defined.
